(** * Real-time stock data distribution: the WebSocket server and its manager

    A shallow embedding of [backend/websocket_server.py] (class
    [StockWebSocketServer]) and [backend/websocket_manager.py] (class
    [WebSocketManager]), followed by the properties of the connection
    registry, the message handler, the upstream fetcher, the broadcast loop
    and the lifecycle manager.

    Conventions of the embedding:
    - a method of [StockWebSocketServer] is a function in the monad [M]:
      it reads and writes the object's fields ([Server]), may raise a Python
      exception ([Raise]), and appends what it does to the outside world to
      a trace of [event]s (sends on a socket, HTTP requests, log records,
      sleeps);
    - what the outside world answers (the feed's HTTP response, the clock,
      whether a socket is already closed) is read from a [World];
    - Python library functions that the repository only calls
      ([str.upper], [json.loads], iteration order of a [set]) are section
      variables: every theorem holds for all of them. *)

From Stdlib Require Import ZArith Ascii String.
From Stdlib Require Import Floats.SpecFloat.
From stdpp Require Import base gmap sets list strings.

Open Scope string_scope.
Open Scope list_scope.
#[local] Set Warnings "-register-all,-clear-no-such-hyp".

(** ** Python values *)

(** What [json.loads] and [response.json()] produce. *)
Inductive json : Type :=
| JNull
| JBool (b : bool)
| JInt (z : Z)
| JFloat (f : spec_float)
| JStr (s : string)
| JArr (items : list json)
| JObj (fields : list (string * json)).

(** The exceptions that the modelled code can meet. All of them derive from
    Python's [Exception]. *)
Inductive exn : Type :=
| ConnectionClosed      (* websockets.exceptions.ConnectionClosed *)
| AttributeError        (* .get / .upper on an object that has none *)
| KeyError              (* del d[k], d[k], set.remove(x) on a missing key *)
| JSONDecodeError       (* json.loads / response.json() on invalid text *)
| RequestException      (* requests.get: transport failure *)
| RecursionError        (* json.loads on too deeply nested text *)
| OSError.              (* websockets.serve: the address cannot be bound *)

Inductive outcome (A : Type) : Type :=
| Ret (a : A)
| Raise (e : exn).
Arguments Ret {A} a.
Arguments Raise {A} e.

Definition obind {A B} (m : outcome A) (k : A -> outcome B) : outcome B :=
  match m with
  | Ret a => k a
  | Raise e => Raise e
  end.

Declare Scope py_scope.
Delimit Scope py_scope with py.
Notation "x <~ m ;; k" := (obind m (fun x => k))
  (at level 100, m at next level, right associativity) : py_scope.

(** *** Dictionaries

    A Python [dict] keeps its keys in insertion order, and the broadcast loop
    iterates over [self.clients]; a dictionary is therefore the list of its
    items in insertion order, with one item per key. *)
Section PyDict.
Context {K V : Type} `{EqDecision K}.

(** [d.get(k)] and [k in d]. *)
Fixpoint dict_get (k : K) (d : list (K * V)) : option V :=
  match d with
  | [] => None
  | (k', v) :: d' => if decide (k = k') then Some v else dict_get k d'
  end.

Definition dict_mem (k : K) (d : list (K * V)) : bool :=
  match dict_get k d with Some _ => true | None => false end.

(** [d[k] = v]: an existing key keeps its place, a new key goes last. *)
Fixpoint dict_set (k : K) (v : V) (d : list (K * V)) : list (K * V) :=
  match d with
  | [] => [(k, v)]
  | (k', v') :: d' =>
      if decide (k = k') then (k, v) :: d' else (k', v') :: dict_set k v d'
  end.

Fixpoint dict_remove (k : K) (d : list (K * V)) : list (K * V) :=
  match d with
  | [] => []
  | (k', v') :: d' =>
      if decide (k = k') then d' else (k', v') :: dict_remove k d'
  end.

(** [d[k]] raises [KeyError] on a missing key. *)
Definition dict_item (k : K) (d : list (K * V)) : outcome V :=
  match dict_get k d with
  | Some v => Ret v
  | None => Raise KeyError
  end.

(** [del d[k]] raises [KeyError] on a missing key. *)
Definition dict_del (k : K) (d : list (K * V)) : outcome (list (K * V)) :=
  match dict_get k d with
  | Some _ => Ret (dict_remove k d)
  | None => Raise KeyError
  end.

Definition dict_keys (d : list (K * V)) : list K := map fst d.
Definition dict_values (d : list (K * V)) : list V := map snd d.

(** Every dictionary the interpreter builds has one item per key. *)
Definition dict_wf (d : list (K * V)) : Prop := NoDup (dict_keys d).
End PyDict.

(** *** Truth value, attribute access and comparison on JSON values *)

(** [bool(v)], as [if v:] computes it. *)
Definition truthy (v : json) : bool :=
  match v with
  | JNull => false
  | JBool b => b
  | JInt z => negb (z =? 0)%Z
  | JFloat (S754_zero _) => false
  | JFloat _ => true
  | JStr s => negb (String.eqb s "")
  | JArr [] => false
  | JArr (_ :: _) => true
  | JObj [] => false
  | JObj (_ :: _) => true
  end.

(** [v.get(key, default)]: only a [dict] has the method. *)
Definition py_get (v : json) (key : string) (default : json) : outcome json :=
  match v with
  | JObj fields => Ret (from_option id default (dict_get key fields))
  | _ => Raise AttributeError
  end.

(** [v == "text"] for a string literal. *)
Definition str_eq (v : json) (text : string) : bool :=
  match v with
  | JStr s => String.eqb s text
  | _ => false
  end.

(** ** The outside world and the trace *)

Definition websocket : Type := nat.

(** What [requests.get(url)] comes back with: an exception of the transport,
    or a response with its status code and, when the body is JSON, the value
    [response.json()] returns. *)
Inductive http_result : Type :=
| TransportFailure
| Response (status_code : Z) (body : option json).

Record World : Type := mkWorld {
  http_get : string -> http_result;     (* the feed's answer to a GET *)
  now_iso : string;                     (* datetime.now().isoformat() *)
  conn_closed : websocket -> bool;      (* send raises ConnectionClosed *)
  bind_fails : bool                     (* websockets.serve raises OSError *)
}.

(** A snapshot is the [dict] that [fetch_stock_data] returns. *)
Definition snapshot : Type := list (string * json).

Inductive level : Type := INFO | WARNING | ERROR.

(** The log records of the two modules, by their format string. *)
Inductive log_record : Type :=
| ClientConnected (total : nat)
| ClientDisconnected (total : nat)
| ClientSubscribed (symbol : string)
| ClientUnsubscribed (symbol : string)
| UnknownAction (action : json)
| InvalidJSON (message : string)
| ErrorHandlingMessage (e : exn)
| ErrorFetching (symbol : string) (e : exn)
| ServerStarted (host : string) (port : Z)
| ServerStopped.

Inductive event : Type :=
| EvSend (ws : websocket) (payload : json) (delivered : bool)
    (* await ws.send(json.dumps(payload)); not delivered = ConnectionClosed *)
| EvHttpGet (url : string)                (* requests.get(url) *)
| EvLog (lvl : level) (r : log_record)    (* logger.info / warning / error *)
| EvSleep (seconds : nat)                 (* await asyncio.sleep(seconds) *)
| EvThreadStart                           (* threading.Thread(...).start() *)
| EvPrint (text : string).                (* print(text) *)

(** ** The server object *)

Inductive listener : Type := Listening | Closed.

Record Server : Type := mkServer {
  host : string;
  port : Z;
  clients : list (websocket * gset string);
  stock_data : gmap string snapshot;
  running : bool;
  server : option listener;
  update_thread : bool
}.

(** [StockWebSocketServer.__init__]. *)
Definition init_server (h : string) (p : Z) : Server :=
  {| host := h; port := p; clients := []; stock_data := ∅;
     running := false; server := None; update_thread := false |}.

Definition set_clients (c : list (websocket * gset string)) (s : Server) : Server :=
  {| host := host s; port := port s; clients := c;
     stock_data := stock_data s; running := running s;
     server := server s; update_thread := update_thread s |}.

Definition set_stock_data (d : gmap string snapshot) (s : Server) : Server :=
  {| host := host s; port := port s; clients := clients s;
     stock_data := d; running := running s;
     server := server s; update_thread := update_thread s |}.

Definition set_running (b : bool) (s : Server) : Server :=
  {| host := host s; port := port s; clients := clients s;
     stock_data := stock_data s; running := b;
     server := server s; update_thread := update_thread s |}.

Definition set_server (l : option listener) (s : Server) : Server :=
  {| host := host s; port := port s; clients := clients s;
     stock_data := stock_data s; running := running s;
     server := l; update_thread := update_thread s |}.

Definition set_update_thread (b : bool) (s : Server) : Server :=
  {| host := host s; port := port s; clients := clients s;
     stock_data := stock_data s; running := running s;
     server := server s; update_thread := b |}.

(** ** The monad of methods: state, exceptions and a trace *)

Record Res (A : Type) : Type := mkRes {
  out : outcome A;
  st : Server;
  tr : list event
}.
Arguments mkRes {A} out st tr.
Arguments out {A} r.
Arguments st {A} r.
Arguments tr {A} r.

Definition M (A : Type) : Type := Server -> Res A.

Definition ret {A} (a : A) : M A := fun s => mkRes (Ret a) s [].

Definition raise {A} (e : exn) : M A := fun s => mkRes (Raise e) s [].

Definition bind {A B} (m : M A) (k : A -> M B) : M B :=
  fun s =>
    let r := m s in
    match out r with
    | Ret a => let r' := k a (st r) in mkRes (out r') (st r') (tr r ++ tr r')
    | Raise e => mkRes (Raise e) (st r) (tr r)
    end.

Notation "x <- m ;; k" := (bind m (fun x => k))
  (at level 100, m at next level, right associativity) : py_scope.
Notation "m ;; k" := (bind m (fun _ => k))
  (at level 100, right associativity) : py_scope.

Definition get_self : M Server := fun s => mkRes (Ret s) s [].
Definition modify (f : Server -> Server) : M unit := fun s => mkRes (Ret tt) (f s) [].
Definition emit (e : event) : M unit := fun s => mkRes (Ret tt) s [e].
Definition lift {A} (o : outcome A) : M A := fun s => mkRes o s [].

(** [try: body / except Exception as e: handler e]. Every [exn] derives from
    [Exception]; what [body] did before it raised stays done. *)
Definition try_except {A} (body : M A) (handler : exn -> M A) : M A :=
  fun s =>
    let r := body s in
    match out r with
    | Ret a => r
    | Raise e => let r' := handler e (st r) in
                 mkRes (out r') (st r') (tr r ++ tr r')
    end.

(** [try: body / finally: final]: [final] always runs; the exception of
    [body], if any, is raised again after it. *)
Definition try_finally {A} (body : M A) (final : M unit) : M A :=
  fun s =>
    let r := body s in
    let r' := final (st r) in
    match out r' with
    | Ret _ => mkRes (out r) (st r') (tr r ++ tr r')
    | Raise e => mkRes (Raise e) (st r') (tr r ++ tr r')
    end.

(** [try: body / except <class>: handler]: only the exceptions that [catch]
    accepts are handled, the others propagate. *)
Definition try_except_when {A} (catch : exn -> bool) (body : M A)
    (handler : exn -> M A) : M A :=
  try_except body (fun e => if catch e then handler e else raise e).

Definition is_ConnectionClosed (e : exn) : bool :=
  match e with ConnectionClosed => true | _ => false end.

(** A call to a function that does not touch [self]. *)
Definition call {A} (f : A * list event) : M A := fun s => mkRes (Ret f.1) s f.2.

(** [for x in l: body x]: an exception leaves the loop. *)
Fixpoint for_each {X} (l : list X) (body : X -> M unit) : M unit :=
  match l with
  | [] => ret tt
  | x :: l' => (body x ;; for_each l' body)%py
  end.

(** ** [StockWebSocketServer] *)

Section StockWebSocketServer.
(** [str.upper], [json.loads] (with the exception it raises on text that
    is not JSON), the order in which Python iterates over a [set] of
    strings, and the API key of the configuration. *)
Variable upper : string -> string.
Variable json_loads : string -> outcome json.
Variable set_iter : gset string -> list string.
Variable POLYGON_API_KEY : string.

Open Scope py_scope.

(** [symbol.upper()]: only a [str] has the method. *)
Definition py_upper (symbol : json) : outcome string :=
  match symbol with
  | JStr s => Ret (upper s)
  | _ => Raise AttributeError
  end.

(** [await websocket.send(json.dumps(payload))]. *)
Definition send (w : World) (ws : websocket) (payload : json) : M unit :=
  if conn_closed w ws
  then emit (EvSend ws payload false) ;; raise ConnectionClosed
  else emit (EvSend ws payload true).

Definition stock_update (symbol : string) (data : snapshot) : json :=
  JObj [("type", JStr "stock_update"); ("symbol", JStr symbol);
        ("data", JObj data)].

Definition pong (w : World) : json :=
  JObj [("type", JStr "pong"); ("timestamp", JStr (now_iso w))].

Definition register (ws : websocket) : M unit :=
  modify (fun s => set_clients (dict_set ws ∅ (clients s)) s) ;;
  s <- get_self ;;
  emit (EvLog INFO (ClientConnected (length (clients s)))).

Definition unregister (ws : websocket) : M unit :=
  s <- get_self ;;
  (if dict_mem ws (clients s)
   then c <- lift (dict_del ws (clients s)) ;; modify (set_clients c)
   else ret tt) ;;
  s <- get_self ;;
  emit (EvLog INFO (ClientDisconnected (length (clients s)))).

(** [self.clients[websocket].add(symbol.upper())]. *)
Definition add_subscription (ws : websocket) (symbol : json) : M unit :=
  s <- get_self ;;
  subs <- lift (dict_item ws (clients s)) ;;
  up <- lift (py_upper symbol) ;;
  modify (set_clients (dict_set ws (subs ∪ {[up]}) (clients s))).

(** [s.remove(x)] raises [KeyError] when [x] is not in the set. *)
Definition set_remove (x : string) (subs : gset string) : outcome (gset string) :=
  if decide (x ∈ subs) then Ret (subs ∖ {[x]}) else Raise KeyError.

(** [self.clients[websocket].remove(symbol.upper())]. *)
Definition remove_subscription (ws : websocket) (symbol : json) : M unit :=
  s <- get_self ;;
  subs <- lift (dict_item ws (clients s)) ;;
  up <- lift (py_upper symbol) ;;
  subs' <- lift (set_remove up subs) ;;
  modify (set_clients (dict_set ws subs' (clients s))).

Definition subscribe (w : World) (ws : websocket) (symbol : json) : M unit :=
  s <- get_self ;;
  if dict_mem ws (clients s) then
    add_subscription ws symbol ;;
    up <- lift (py_upper symbol) ;;
    (match stock_data s !! up with
     | Some data => send w ws (stock_update up data)
     | None => ret tt
     end) ;;
    emit (EvLog INFO (ClientSubscribed up))
  else ret tt.

Definition unsubscribe (w : World) (ws : websocket) (symbol : json) : M unit :=
  s <- get_self ;;
  if dict_mem ws (clients s) then
    subs <- lift (dict_item ws (clients s)) ;;
    up <- lift (py_upper symbol) ;;
    if decide (up ∈ subs) then
      remove_subscription ws symbol ;;
      emit (EvLog INFO (ClientUnsubscribed up))
    else ret tt
  else ret tt.

Definition handle_message (w : World) (ws : websocket) (message : string) : M unit :=
  try_except
    (data <- lift (json_loads message) ;;
     action <- lift (py_get data "action" JNull) ;;
     if str_eq action "subscribe" then
       symbol <- lift (py_get data "symbol" JNull) ;;
       if truthy symbol then subscribe w ws symbol else ret tt
     else if str_eq action "unsubscribe" then
       symbol <- lift (py_get data "symbol" JNull) ;;
       if truthy symbol then unsubscribe w ws symbol else ret tt
     else if str_eq action "ping" then
       send w ws (pong w)
     else
       emit (EvLog WARNING (UnknownAction action)))
    (fun e =>
       match e with
       | JSONDecodeError => emit (EvLog ERROR (InvalidJSON message))
       | _ => emit (EvLog ERROR (ErrorHandlingMessage e))
       end).

(** How the iteration [async for message in websocket] ends: the peer
    closed the connection cleanly (the loop just ends) or the connection
    broke ([ConnectionClosed] is raised in the loop). *)
Inductive closure : Type := ClosedOK | ClosedError.

(** Each inbound message is handled in the world as it is on arrival. *)
Definition handler (ws : websocket) (path : string)
    (inbox : list (World * string)) (how : closure) : M unit :=
  register ws ;;
  try_finally
    (try_except_when is_ConnectionClosed
       (for_each inbox (fun wm => handle_message wm.1 ws wm.2) ;;
        match how with
        | ClosedOK => ret tt
        | ClosedError => raise ConnectionClosed
        end)
       (fun _ => ret tt))
    (unregister ws).

Definition trade_url (symbol : string) : string :=
  "https://api.polygon.io/v2/last/trade/" +:+ symbol +:+ "?apiKey="
    +:+ POLYGON_API_KEY.

(** [requests.get(url)] and [response.json()]. *)
Definition requests_get (w : World) (url : string) : outcome (Z * option json) :=
  match http_get w url with
  | TransportFailure => Raise RequestException
  | Response status body => Ret (status, body)
  end.

Definition response_json (body : option json) : outcome json :=
  match body with
  | Some data => Ret data
  | None => Raise JSONDecodeError
  end.

(** [fetch_stock_data] uses nothing of [self]: it is a function of the
    world and the symbol that returns its value and what it did. *)
Definition fetch_stock_data (w : World) (symbol : string)
    : option snapshot * list event :=
  let url := trade_url symbol in
  let attempt : outcome (option snapshot) :=
    response <~ requests_get w url ;;
    if (response.1 =? 200)%Z then
      data <~ response_json response.2 ;;
      result <~ py_get data "results" (JObj []) ;;
      if truthy result then
        p <~ py_get result "p" (JInt 0) ;;
        sz <~ py_get result "s" (JInt 0) ;;
        t <~ py_get result "t" (JInt 0) ;;
        x <~ py_get result "x" (JInt 0) ;;
        c <~ py_get result "c" (JArr []) ;;
        Ret (Some [("price", p); ("size", sz); ("timestamp", t);
                   ("exchange", x); ("conditions", c);
                   ("updated_at", JStr (now_iso w))])
      else Ret None
    else Ret None in
  match attempt with
  | Ret v => (v, [EvHttpGet url])
  | Raise e => (None, [EvHttpGet url; EvLog ERROR (ErrorFetching symbol e)])
  end.

(** [all_symbols = set()] then [all_symbols.update(subscriptions)] for
    each value of [self.clients]. *)
Definition all_symbols (c : list (websocket * gset string)) : gset string :=
  foldl (fun acc subscriptions => acc ∪ subscriptions) ∅ (dict_values c).

(** [if data:] on an [Optional[Dict]]. *)
Definition data_truthy (data : option snapshot) : bool :=
  match data with
  | Some (_ :: _) => true
  | _ => false
  end.

(** The body of [for symbol in all_symbols]. *)
Definition broadcast_symbol (w : World) (symbol : string) : M unit :=
  data <- call (fetch_stock_data w symbol) ;;
  match data with
  | Some d =>
      if data_truthy data then
        modify (fun s => set_stock_data (<[symbol := d]> (stock_data s)) s) ;;
        s <- get_self ;;
        for_each (clients s) (fun item =>
          if decide (symbol ∈ item.2) then
            try_except_when is_ConnectionClosed
              (send w item.1 (stock_update symbol d))
              (fun _ => ret tt)
          else ret tt)
      else ret tt
  | None => ret tt
  end.

(** One turn of [while self.running]. Each symbol of the cycle is fetched
    and pushed in the world as it is when its turn comes. *)
Definition broadcast_cycle (env : string -> World) : M unit :=
  s <- get_self ;;
  for_each (set_iter (all_symbols (clients s)))
    (fun symbol => broadcast_symbol (env symbol) symbol) ;;
  emit (EvSleep 5).

(** [broadcast_updates], run for as many cycles as worlds are given. The
    loop leaves only when it reads [self.running] as false. *)
Inductive loop_status : Type := LoopExited | LoopStillRunning.

Fixpoint broadcast_updates (envs : list (string -> World)) : M loop_status :=
  s <- get_self ;;
  if running s then
    match envs with
    | [] => ret LoopStillRunning
    | env :: envs' => broadcast_cycle env ;; broadcast_updates envs'
    end
  else ret LoopExited.

(** [start_server], up to the point where it waits in [wait_closed]. The
    thread it starts runs [broadcast_updates]. *)
Definition start_server (w : World) : M unit :=
  modify (set_running true) ;;
  modify (set_update_thread true) ;;
  emit EvThreadStart ;;
  (if bind_fails w then raise OSError
   else modify (set_server (Some Listening))) ;;
  s <- get_self ;;
  emit (EvLog INFO (ServerStarted (host s) (port s))).

(** [stop]: [self.server.close()] stops accepting and closes the
    listening socket. *)
Definition stop : M unit :=
  modify (set_running false) ;;
  s <- get_self ;;
  (match server s with
   | Some _ => modify (set_server (Some Closed))
   | None => ret tt
   end) ;;
  emit (EvLog INFO ServerStopped).
End StockWebSocketServer.

(** [run_server]: a fresh server object is started. [Ret] means that the
    call is waiting in [wait_closed], which only [stop] could end; when
    [start_server] raises, the [finally] clause runs [stop] and the
    exception goes on to the caller. ([KeyboardInterrupt] is not among the
    exceptions of the model.) *)
Definition run_server (WS_HOST : string) (WS_PORT : Z) (w : World) : Res unit :=
  let r := start_server w (init_server WS_HOST WS_PORT) in
  match out r with
  | Ret _ => r
  | Raise e => let r' := stop (st r) in mkRes (Raise e) (st r') (tr r ++ tr r')
  end.

(** ** [WebSocketManager] *)

Module Manager.
(** [threading.Thread(target=self._run_server)], a daemon thread. *)
Inductive thread : Type := DaemonThread.

Record WebSocketManager : Type := mkManager {
  websocket_thread : option thread;
  server_running : bool
}.

(** [WebSocketManager.__init__] on the first construction. *)
Definition init_manager : WebSocketManager :=
  {| websocket_thread := None; server_running := false |}.

(** The process as the manager's methods find it: the singleton manager,
    and the [StockWebSocketServer] that [run_server] created as a local
    variable of the background thread ([None] when no thread serves).
    The manager has no field that refers to that object. *)
Record Process : Type := mkProcess {
  manager : WebSocketManager;
  instance : option Server
}.

(** [stop_server]: the body is one assignment to the manager's own flag
    and a [print]. *)
Definition stop_server (p : Process) : Process * list event :=
  match server_running (manager p), websocket_thread (manager p) with
  | true, Some t =>
      ({| manager := {| websocket_thread := Some t; server_running := false |};
          instance := instance p |},
       [EvPrint "WebSocket server stopped"])
  | _, _ => (p, [])
  end.

(** The background thread serves: its server object still runs the
    broadcast loop, or still listens. *)
Definition still_serving (p : Process) : bool :=
  match instance p with
  | Some srv =>
      running srv || match server srv with Some Listening => true | _ => false end
  | None => false
  end.

Section Lifecycle.
Variable ENABLE_WEBSOCKET : bool.
Variable WS_HOST : string.
Variable WS_PORT : Z.
(** [str(e)] in the message that [_run_server] prints. *)
Variable str_exn : exn -> string.

(** [_run_server], the body of the background thread: while [run_server]
    waits, its server object is the process's instance; when it raises, the
    [except] clause prints the error and clears the manager's flag, the
    thread ends and its server object is dropped (the process keeps the
    instance it had, if any). *)
Definition _run_server (w : World) (p : Process) : Process * list event :=
  let r := run_server WS_HOST WS_PORT w in
  match out r with
  | Ret _ => ({| manager := manager p; instance := Some (st r) |}, tr r)
  | Raise e =>
      ({| manager := {| websocket_thread := websocket_thread (manager p);
                        server_running := false |};
          instance := instance p |},
       tr r ++ [EvPrint ("Error running WebSocket server: " +:+ str_exn e)])
  end.

(** [start_server] of the manager: the thread it starts runs
    [_run_server] on its own; here the thread is only created and started. *)
Definition start_server (p : Process) : Process * list event :=
  if negb (server_running (manager p)) && ENABLE_WEBSOCKET then
    ({| manager := {| websocket_thread := Some DaemonThread;
                      server_running := true |};
        instance := instance p |},
     [EvThreadStart; EvPrint "WebSocket server started in background thread"])
  else if negb ENABLE_WEBSOCKET then
    (p, [EvPrint "WebSocket server is disabled by configuration"])
  else (p, []).
End Lifecycle.
End Manager.

(** ** Observations on states and traces *)

(** The subscription set of a connection ([∅] when it is not registered). *)
Definition subs_of (ws : websocket) (s : Server) : gset string :=
  default ∅ (dict_get ws (clients s)).

(** The state in which the subscription set of [ws] is [subs]. *)
Definition subscribed (ws : websocket) (subs : gset string) (s : Server) : Server :=
  set_clients (dict_set ws subs (clients s)) s.

(** The calls to [websocket.send] of a trace, in order. *)
Definition sends (t : list event) : list (websocket * json * bool) :=
  omap (fun e => match e with
                 | EvSend ws payload delivered => Some (ws, payload, delivered)
                 | _ => None
                 end) t.

(** The calls to [requests.get] of a trace, in order. *)
Definition requests (t : list event) : list string :=
  omap (fun e => match e with EvHttpGet url => Some url | _ => None end) t.

(** The log records of a trace, in order. *)
Definition logs (t : list event) : list (level * log_record) :=
  omap (fun e => match e with EvLog lvl r => Some (lvl, r) | _ => None end) t.

Definition is_disconnect (e : event) : bool :=
  match e with EvLog INFO (ClientDisconnected _) => true | _ => false end.

(** A subscription operation on one connection, and the set semantics it is
    compared with. *)
Inductive sub_op : Type :=
| OpSubscribe (symbol : string)
| OpUnsubscribe (symbol : string).

Definition op_symbol (op : sub_op) : string :=
  match op with OpSubscribe sym | OpUnsubscribe sym => sym end.

Definition op_is_subscribe (op : sub_op) : bool :=
  match op with OpSubscribe _ => true | OpUnsubscribe _ => false end.

Section SetSemantics.
Variable upper : string -> string.

(** The last operation of [ops] on the symbol whose normal form is [x]:
    [Some true] for a subscribe, [Some false] for an unsubscribe, [None]
    when no operation matches. *)
Fixpoint last_matching (x : string) (ops : list sub_op) : option bool :=
  match ops with
  | [] => None
  | op :: ops' =>
      match last_matching x ops' with
      | Some k => Some k
      | None => if decide (upper (op_symbol op) = x)
                then Some (op_is_subscribe op) else None
      end
  end.

Definition apply_op (w : World) (ws : websocket) (op : sub_op) : M unit :=
  match op with
  | OpSubscribe sym => subscribe upper w ws (JStr sym)
  | OpUnsubscribe sym => unsubscribe upper w ws (JStr sym)
  end.

(** The operations of one connection, one after the other; as in
    [handle_message], an operation that raised does not stop the next. *)
Fixpoint run_ops (ws : websocket) (ops : list (World * sub_op)) (s : Server) : Server :=
  match ops with
  | [] => s
  | wop :: ops' => run_ops ws ops' (st (apply_op wop.1 ws wop.2 s))
  end.
End SetSemantics.

Section Messages.
Variable upper : string -> string.
Variable json_loads : string -> outcome json.

(** [data.get("action")] of a parsed object. *)
Definition action_of (fields : list (string * json)) : json :=
  from_option id JNull (dict_get "action" fields).

Definition recognized (action : json) : bool :=
  str_eq action "subscribe" || str_eq action "unsubscribe" || str_eq action "ping".

(** The messages that are not the expected payload: text that
    [json.loads] refuses, JSON text whose value is not an object, and
    objects whose action is none of the three recognized ones (a missing
    action included). *)
Definition rejected (message : string) : bool :=
  match json_loads message with
  | Raise _ => true
  | Ret (JObj fields) => negb (recognized (action_of fields))
  | Ret _ => true
  end.

(** All the messages of an inbox handled one after the other, whatever
    each of them does: the final state and the whole trace. *)
Fixpoint handle_all (ws : websocket) (inbox : list (World * string))
    (s : Server) : Server * list event :=
  match inbox with
  | [] => (s, [])
  | wm :: inbox' =>
      let r := handle_message upper json_loads wm.1 ws wm.2 s in
      let rest := handle_all ws inbox' (st r) in
      (rest.1, tr r ++ rest.2)
  end.

(** What the [except] clauses of [handle_message] do with an exception. *)
Definition on_error (message : string) (e : exn) : M unit :=
  match e with
  | JSONDecodeError => emit (EvLog ERROR (InvalidJSON message))
  | _ => emit (EvLog ERROR (ErrorHandlingMessage e))
  end.

(** What a message of one connection can do: it leaves the state as it
    was or changes the subscription set of its own, registered,
    connection; it sends to its own connection only; it writes no
    disconnection record. *)
Definition local_to (ws : websocket) (s : Server) (r : Res unit) : Prop :=
  (st r = s ∨
   ∃ subs', dict_get ws (clients s) ≠ None ∧ st r = subscribed ws subs' s) ∧
  Forall (fun e => is_disconnect e = false) (tr r) ∧
  Forall (fun x => x.1.1 = ws) (sends (tr r)).
End Messages.

(** A response that carries a trade: status 200 and a JSON object whose
    ["results"] is a non-empty object. *)
Definition results_of (r : http_result) : option (list (string * json)) :=
  match r with
  | Response status (Some (JObj fields)) =>
      if (status =? 200)%Z then
        match dict_get "results" fields with
        | Some (JObj (f :: res)) => Some (f :: res)
        | _ => None
        end
      else None
  | _ => None
  end.

Definition good_response (r : http_result) : bool :=
  match results_of r with Some _ => true | None => false end.

(** The value of a field of the feed's result, or the default. *)
Definition field_or (key : string) (default : json) (res : list (string * json)) : json :=
  from_option id default (dict_get key res).

(** The snapshot built from the feed's result at the time [now]. *)
Definition snapshot_of (res : list (string * json)) (now : string) : snapshot :=
  [("price", field_or "p" (JInt 0) res); ("size", field_or "s" (JInt 0) res);
   ("timestamp", field_or "t" (JInt 0) res);
   ("exchange", field_or "x" (JInt 0) res);
   ("conditions", field_or "c" (JArr []) res);
   ("updated_at", JStr now)].

Definition snapshot_keys : list string :=
  ["price"; "size"; "timestamp"; "exchange"; "conditions"; "updated_at"].

Section Broadcast.
Variable POLYGON_API_KEY : string.

(** The sends of one symbol's turn: one for each item of the registry, in
    its order, whose set holds the symbol. *)
Definition pushes (w : World) (symbol : string) (d : snapshot)
    (c : list (websocket * gset string)) : list event :=
  map (fun item => EvSend item.1 (stock_update symbol d)
                     (negb (conn_closed w item.1)))
      (filter (fun item => symbol ∈ item.2) c).

Definition fetched (env : string -> World) (symbol : string) : option snapshot :=
  (fetch_stock_data POLYGON_API_KEY (env symbol) symbol).1.

(** The trace of one symbol's turn and the cache after the turns of a
    list of symbols. *)
Definition symbol_trace (env : string -> World)
    (c : list (websocket * gset string)) (symbol : string) : list event :=
  (fetch_stock_data POLYGON_API_KEY (env symbol) symbol).2 ++
  match fetched env symbol with
  | Some d => pushes (env symbol) symbol d c
  | None => []
  end.

Definition cache_after (env : string -> World) (symbols : list string)
    (cache : gmap string snapshot) : gmap string snapshot :=
  foldl (fun c symbol => match fetched env symbol with
                         | Some d => <[symbol := d]> c
                         | None => c
                         end) cache symbols.
End Broadcast.

(** The instance of [str.upper] on ASCII text, for the examples. *)
Definition ascii_upper (c : ascii) : ascii :=
  let n := nat_of_ascii c in
  if (97 <=? n)%nat && (n <=? 122)%nat then ascii_of_nat (n - 32) else c.

Fixpoint ascii_upper_string (s : string) : string :=
  match s with
  | EmptyString => EmptyString
  | String c s' => String (ascii_upper c) (ascii_upper_string s')
  end.

(** ** A small running system, for the examples

    Connection 1 follows AAPL and MSFT, connection 2 follows MSFT and its
    socket is already closed; the cache holds a snapshot of MSFT; the feed
    answers for MSFT and is unreachable for every other symbol. *)

Definition sample_key : string := "demo".

Definition sample_trade : list (string * json) := [("p", JInt 150); ("s", JInt 10)].

Definition sample_world : World :=
  {| http_get := fun url =>
       if String.eqb url (trade_url sample_key "MSFT")
       then Response 200 (Some (JObj [("results", JObj sample_trade)]))
       else TransportFailure;
     now_iso := "2024-01-02T03:04:05";
     conn_closed := fun ws => Nat.eqb ws 2;
     bind_fails := false |}.

Definition sample_snapshot : snapshot := snapshot_of sample_trade "2024-01-01T00:00:00".

Definition sample_server : Server :=
  {| host := "localhost"; port := 8765;
     clients := [(1, {["AAPL"; "MSFT"]}); (2, {["MSFT"]})];
     stock_data := {["MSFT" := sample_snapshot]};
     running := true; server := Some Listening; update_thread := true |}.

(** [json.loads] on three texts; the examples use no other. *)
Definition sample_loads (message : string) : outcome json :=
  if String.eqb message "{}" then Ret (JObj [])
  else if String.eqb message "[1]" then Ret (JArr [JInt 1])
  else Raise JSONDecodeError.

(** The process in which the manager has started the background thread and
    the thread's server object is serving. *)
Definition serving_process : Manager.Process :=
  {| Manager.manager :=
       {| Manager.websocket_thread := Some Manager.DaemonThread;
          Manager.server_running := true |};
     Manager.instance :=
       Some (st (start_server sample_world (init_server "localhost" 8765))) |}.

(** ** Further observations *)

(** Every symbol of every subscription set is the uppercase form of some
    string. *)
Definition normalized (upper : string -> string) (s : Server) : Prop :=
  ∀ item x, item ∈ clients s → x ∈ item.2 → ∃ sym, x = upper sym.

(** The sends of a list that are addressed to one connection. *)
Definition sent_to (ws : websocket) (l : list (websocket * json * bool))
    : list (websocket * json * bool) :=
  filter (fun x => x.1.1 = ws) l.

(** The sleeps of a trace, in order. *)
Definition sleeps (t : list event) : list nat :=
  omap (fun e => match e with EvSleep n => Some n | _ => None end) t.

(** What one cycle owes a connection with the subscription set [subs] for
    one symbol: the message with type ["stock_update"], that symbol and its
    fresh snapshot as data, when the set holds the symbol and its fetch
    succeeded. *)
Definition delivery (key : string) (env : string -> World) (ws : websocket)
    (subs : gset string) (symbol : string) : option (websocket * json * bool) :=
  if decide (symbol ∈ subs)
  then (fun d =>
          (ws,
           JObj [("type", JStr "stock_update"); ("symbol", JStr symbol);
                 ("data", JObj d)],
           negb (conn_closed (env symbol) ws)))
         <$> fetched key env symbol
  else None.

(** Message texts of the protocol, and [json.loads] on them. *)
Definition quote : string := String "034"%char EmptyString.

Definition json_string (s : string) : string := quote +:+ s +:+ quote.

Definition json_member (key value : string) : string :=
  json_string key +:+ ": " +:+ value.

Definition text_ping : string :=
  "{" +:+ json_member "action" (json_string "ping") +:+ "}".

Definition text_subscribe (symbol : string) : string :=
  "{" +:+ json_member "action" (json_string "subscribe") +:+ ", "
      +:+ json_member "symbol" symbol +:+ "}".

Definition text_subscribe_bare : string :=
  "{" +:+ json_member "action" (json_string "subscribe") +:+ "}".

Definition protocol_loads (message : string) : outcome json :=
  if String.eqb message text_ping then
    Ret (JObj [("action", JStr "ping")])
  else if String.eqb message (text_subscribe (json_string "msft")) then
    Ret (JObj [("action", JStr "subscribe"); ("symbol", JStr "msft")])
  else if String.eqb message (text_subscribe "5") then
    Ret (JObj [("action", JStr "subscribe"); ("symbol", JInt 5)])
  else if String.eqb message text_subscribe_bare then
    Ret (JObj [("action", JStr "subscribe")])
  else sample_loads message.

(** A world in which the address cannot be bound and every socket is
    closed. *)
Definition hostile_world : World :=
  {| http_get := http_get sample_world; now_iso := now_iso sample_world;
     conn_closed := fun _ => true; bind_fails := true |}.

(** * Properties *)

(** ** Dictionaries *)

Section PyDictFacts.
Context {K V : Type} `{EqDecision K}.
Implicit Types (k : K) (v : V) (d : list (K * V)).

Lemma dict_get_set_eq k v d : dict_get k (dict_set k v d) = Some v.
Proof.
  induction d as [|[k' v'] d IH]; simpl.
  - by rewrite decide_True.
  - destruct (decide (k = k')) as [->|Hne]; simpl.
    + by rewrite decide_True.
    + by rewrite decide_False.
Qed.

Lemma dict_get_set_ne k k' v d :
  k ≠ k' → dict_get k' (dict_set k v d) = dict_get k' d.
Proof.
  intros Hne. induction d as [|[k0 v0] d IH]; simpl.
  - by rewrite decide_False.
  - destruct (decide (k = k0)) as [->|Hne0]; simpl.
    + by rewrite !decide_False.
    + by rewrite IH.
Qed.

Lemma dict_get_None k d : dict_get k d = None ↔ k ∉ dict_keys d.
Proof.
  induction d as [|[k' v'] d IH]; simpl.
  - split; [intros _; apply not_elem_of_nil | done].
  - rewrite not_elem_of_cons. destruct (decide (k = k')) as [->|Hne].
    + split; [done | intros [? _]; done].
    + rewrite IH. tauto.
Qed.

Lemma dict_get_Some_elem k v d : dict_get k d = Some v → (k, v) ∈ d.
Proof.
  induction d as [|[k' v'] d IH]; simpl; [done|].
  destruct (decide (k = k')) as [->|Hne].
  - intros [= ->]. apply list_elem_of_here.
  - intros Hg. apply list_elem_of_further. auto.
Qed.

Lemma dict_elem_get k v d : dict_wf d → (k, v) ∈ d → dict_get k d = Some v.
Proof.
  unfold dict_wf. induction d as [|[k' v'] d IH]; simpl.
  - intros _ Hin. by apply elem_of_nil in Hin.
  - intros Hnd Hin. apply NoDup_cons in Hnd as [Hnotin Hnd].
    apply elem_of_cons in Hin as [[= -> ->]|Hin].
    + by rewrite decide_True.
    + destruct (decide (k = k')) as [->|Hne]; [|by apply IH].
      exfalso. apply Hnotin. unfold dict_keys.
      apply list_elem_of_fmap. by exists (k', v).
Qed.

Lemma dict_set_id k v d : dict_get k d = Some v → dict_set k v d = d.
Proof.
  induction d as [|[k' v'] d IH]; simpl; [done|].
  destruct (decide (k = k')) as [->|Hne].
  - by intros [= ->].
  - intros Hg. by rewrite IH.
Qed.

Lemma dict_keys_set_present k v d :
  dict_get k d ≠ None → dict_keys (dict_set k v d) = dict_keys d.
Proof.
  induction d as [|[k' v'] d IH]; simpl; [done|].
  destruct (decide (k = k')) as [->|Hne]; simpl; [done|].
  intros Hg. by rewrite IH.
Qed.

Lemma dict_keys_set_absent k v d :
  dict_get k d = None → dict_keys (dict_set k v d) = dict_keys d ++ [k].
Proof.
  induction d as [|[k' v'] d IH]; simpl; [done|].
  destruct (decide (k = k')) as [->|Hne]; simpl; [done|].
  intros Hg. by rewrite IH.
Qed.

Lemma dict_wf_set k v d : dict_wf d → dict_wf (dict_set k v d).
Proof.
  unfold dict_wf. intros Hwf.
  destruct (dict_get k d) as [v0|] eqn:Hg.
  - rewrite dict_keys_set_present; [done | by rewrite Hg].
  - rewrite dict_keys_set_absent by done.
    apply NoDup_app. split_and!; [done| |apply NoDup_singleton].
    intros x Hx ->%list_elem_of_singleton. by apply dict_get_None in Hg.
Qed.

Lemma dict_remove_absent k d : dict_get k d = None → dict_remove k d = d.
Proof.
  induction d as [|[k' v'] d IH]; simpl; [done|].
  destruct (decide (k = k')) as [->|Hne]; [done|].
  intros Hg. by rewrite IH.
Qed.

Lemma dict_get_remove_ne k k' d :
  k ≠ k' → dict_get k' (dict_remove k d) = dict_get k' d.
Proof.
  intros Hne. induction d as [|[k0 v0] d IH]; simpl; [done|].
  destruct (decide (k = k0)) as [->|Hne0]; simpl.
  - by rewrite decide_False.
  - by rewrite IH.
Qed.

Lemma dict_keys_remove_sub k d x :
  x ∈ dict_keys (dict_remove k d) → x ∈ dict_keys d.
Proof.
  induction d as [|[k0 v0] d IH]; simpl; [done|].
  destruct (decide (k = k0)) as [->|Hne0]; simpl.
  - apply list_elem_of_further.
  - rewrite !elem_of_cons. intros [->|Hx]; auto.
Qed.

Lemma dict_wf_remove k d : dict_wf d → dict_wf (dict_remove k d).
Proof.
  unfold dict_wf. induction d as [|[k0 v0] d IH]; simpl; [done|].
  intros [Hnotin Hnd]%NoDup_cons.
  destruct (decide (k = k0)) as [->|Hne0]; simpl; [done|].
  apply NoDup_cons. split; [|by apply IH].
  intros Hx. apply Hnotin. by apply dict_keys_remove_sub in Hx.
Qed.

Lemma dict_get_remove_eq k d : dict_wf d → dict_get k (dict_remove k d) = None.
Proof.
  unfold dict_wf. induction d as [|[k0 v0] d IH]; simpl; [done|].
  intros [Hnotin Hnd]%NoDup_cons.
  destruct (decide (k = k0)) as [->|Hne0]; simpl.
  - by apply dict_get_None.
  - rewrite decide_False by done. by apply IH.
Qed.

Lemma dict_mem_true k d : dict_mem k d = true ↔ dict_get k d ≠ None.
Proof. unfold dict_mem. destruct (dict_get k d); split; done. Qed.

Lemma dict_mem_false k d : dict_mem k d = false ↔ dict_get k d = None.
Proof. unfold dict_mem. destruct (dict_get k d); split; done. Qed.
End PyDictFacts.

(** ** The connection registry *)

(** Unfolds the monad so that a method applied to a state computes. *)
Ltac run_monad :=
  cbv beta delta [bind ret raise get_self modify emit lift call
                  try_except try_except_when try_finally] in *;
  cbn beta iota zeta delta [out st tr fst snd] in *.

Section Registry.
Variable upper : string -> string.
Implicit Types (ws : websocket) (s : Server) (w : World).

Lemma set_clients_id s : set_clients (clients s) s = s.
Proof. by destruct s. Qed.

Lemma register_run ws s :
  register ws s =
  mkRes (Ret tt) (set_clients (dict_set ws ∅ (clients s)) s)
    [EvLog INFO (ClientConnected (length (dict_set ws ∅ (clients s))))].
Proof. reflexivity. Qed.

Lemma unregister_absent ws s :
  dict_get ws (clients s) = None →
  unregister ws s =
  mkRes (Ret tt) s [EvLog INFO (ClientDisconnected (length (clients s)))].
Proof.
  intros Hg. unfold unregister, dict_mem. run_monad. by rewrite Hg.
Qed.

Lemma unregister_present ws s :
  dict_get ws (clients s) ≠ None →
  unregister ws s =
  mkRes (Ret tt) (set_clients (dict_remove ws (clients s)) s)
    [EvLog INFO (ClientDisconnected (length (dict_remove ws (clients s))))].
Proof.
  intros Hg. unfold unregister, dict_mem, dict_del. run_monad.
  destruct (dict_get ws (clients s)); [done | congruence].
Qed.

Lemma unregister_returns ws s : out (unregister ws s) = Ret tt.
Proof.
  destruct (dict_get ws (clients s)) eqn:Hg.
  - rewrite unregister_present; [done | congruence].
  - by rewrite unregister_absent.
Qed.

Lemma unregister_gone ws s :
  dict_wf (clients s) → dict_get ws (clients (st (unregister ws s))) = None.
Proof.
  intros Hwf. destruct (dict_get ws (clients s)) eqn:Hg.
  - rewrite unregister_present by congruence. simpl.
    by apply dict_get_remove_eq.
  - by rewrite unregister_absent.
Qed.

Lemma unregister_wf ws s :
  dict_wf (clients s) → dict_wf (clients (st (unregister ws s))).
Proof.
  intros Hwf. destruct (dict_get ws (clients s)) eqn:Hg.
  - rewrite unregister_present by congruence. simpl. by apply dict_wf_remove.
  - by rewrite unregister_absent.
Qed.

(** C5. Unregistering a connection that is not in the registry (never
    registered, or already unregistered) raises nothing and leaves the
    server state, and so the registry, as it was; [unregister] never raises
    and doing it twice leaves the state that doing it once leaves.
    Registering a connection, already registered or not, raises nothing
    and leaves a registry with one entry per connection, in which the
    connection has the empty subscription set and every other connection
    has the entry it had; when the connection was already registered the
    registry has the same connections in the same order. *)
Theorem registry_register_unregister_safe ws s :
  dict_wf (clients s) →
  (dict_get ws (clients s) = None →
     out (unregister ws s) = Ret tt ∧ st (unregister ws s) = s) ∧
  out (unregister ws s) = Ret tt ∧
  st (unregister ws (st (unregister ws s))) = st (unregister ws s) ∧
  out (unregister ws (st (unregister ws s))) = Ret tt ∧
  out (register ws s) = Ret tt ∧
  dict_wf (clients (st (register ws s))) ∧
  dict_get ws (clients (st (register ws s))) = Some ∅ ∧
  (∀ ws', ws' ≠ ws →
     dict_get ws' (clients (st (register ws s))) = dict_get ws' (clients s)) ∧
  (dict_get ws (clients s) ≠ None →
     dict_keys (clients (st (register ws s))) = dict_keys (clients s)).
Proof.
  intros Hwf. split_and!.
  - intros Hg. by rewrite unregister_absent.
  - apply unregister_returns.
  - rewrite (unregister_absent ws (st (unregister ws s))); [done|].
    by apply unregister_gone.
  - apply unregister_returns.
  - done.
  - rewrite register_run. simpl. by apply dict_wf_set.
  - rewrite register_run. simpl. apply dict_get_set_eq.
  - intros ws' Hne. rewrite register_run. simpl. by apply dict_get_set_ne.
  - intros Hg. rewrite register_run. simpl. by apply dict_keys_set_present.
Qed.

(** *** [subscribe] and [unsubscribe], computed *)

Lemma subscribe_unregistered w ws symbol s :
  dict_get ws (clients s) = None →
  subscribe upper w ws symbol s = mkRes (Ret tt) s [].
Proof. intros Hg. unfold subscribe, dict_mem. run_monad. by rewrite Hg. Qed.

Lemma unsubscribe_unregistered w ws symbol s :
  dict_get ws (clients s) = None →
  unsubscribe upper w ws symbol s = mkRes (Ret tt) s [].
Proof. intros Hg. unfold unsubscribe, dict_mem. run_monad. by rewrite Hg. Qed.

Lemma subscribe_registered w ws sym subs s :
  dict_get ws (clients s) = Some subs →
  subscribe upper w ws (JStr sym) s =
  let s' := subscribed ws (subs ∪ {[upper sym]}) s in
  match stock_data s !! upper sym with
  | Some data =>
      if conn_closed w ws
      then mkRes (Raise ConnectionClosed) s'
             [EvSend ws (stock_update (upper sym) data) false]
      else mkRes (Ret tt) s'
             [EvSend ws (stock_update (upper sym) data) true;
              EvLog INFO (ClientSubscribed (upper sym))]
  | None => mkRes (Ret tt) s' [EvLog INFO (ClientSubscribed (upper sym))]
  end.
Proof.
  intros Hg.
  unfold subscribe, add_subscription, send, dict_mem, dict_item, py_upper.
  run_monad. repeat (progress (rewrite ?Hg; cbn)).
  destruct (stock_data s !! upper sym); [|done].
  destruct (conn_closed w ws); by cbn.
Qed.

Lemma unsubscribe_registered w ws sym subs s :
  dict_get ws (clients s) = Some subs →
  unsubscribe upper w ws (JStr sym) s =
  if decide (upper sym ∈ subs)
  then mkRes (Ret tt) (subscribed ws (subs ∖ {[upper sym]}) s)
         [EvLog INFO (ClientUnsubscribed (upper sym))]
  else mkRes (Ret tt) s [].
Proof.
  intros Hg.
  unfold unsubscribe, remove_subscription, set_remove, dict_mem, dict_item,
    py_upper.
  run_monad. repeat (progress (rewrite ?Hg; cbn)).
  destruct (decide (upper sym ∈ subs)); [|done].
  repeat (progress (rewrite ?Hg; cbn)). by rewrite decide_True.
Qed.

Lemma subs_of_subscribed ws subs s : subs_of ws (subscribed ws subs s) = subs.
Proof. unfold subs_of, subscribed. simpl. by rewrite dict_get_set_eq. Qed.

Lemma subscribed_same ws subs s :
  dict_get ws (clients s) = Some subs → subscribed ws subs s = s.
Proof.
  intros Hg. unfold subscribed. rewrite dict_set_id by done.
  apply set_clients_id.
Qed.

Lemma subscribe_state w ws sym subs s :
  dict_get ws (clients s) = Some subs →
  st (subscribe upper w ws (JStr sym) s) = subscribed ws (subs ∪ {[upper sym]}) s.
Proof.
  intros Hg. rewrite (subscribe_registered _ _ _ subs) by done. cbn.
  destruct (stock_data s !! upper sym); [|done].
  by destruct (conn_closed w ws).
Qed.

Lemma unsubscribe_state w ws sym subs s :
  dict_get ws (clients s) = Some subs →
  st (unsubscribe upper w ws (JStr sym) s) = subscribed ws (subs ∖ {[upper sym]}) s.
Proof.
  intros Hg. rewrite (unsubscribe_registered _ _ _ subs) by done.
  destruct (decide (upper sym ∈ subs)) as [Hin|Hnin]; [done|].
  cbn. rewrite <- (subscribed_same ws subs s Hg) at 1.
  f_equal. set_solver.
Qed.

Lemma apply_op_state w ws op subs s :
  dict_get ws (clients s) = Some subs →
  st (apply_op upper w ws op s) =
  subscribed ws (if op_is_subscribe op
                 then subs ∪ {[upper (op_symbol op)]}
                 else subs ∖ {[upper (op_symbol op)]}) s.
Proof.
  intros Hg. destruct op as [sym|sym].
  - exact (subscribe_state w ws sym subs s Hg).
  - exact (unsubscribe_state w ws sym subs s Hg).
Qed.

Lemma run_ops_registered ws ops : ∀ s subs,
  dict_get ws (clients s) = Some subs →
  ∃ subs', dict_get ws (clients (run_ops upper ws ops s)) = Some subs' ∧
    ∀ x, x ∈ subs' ↔
         match last_matching upper x (map snd ops) with
         | Some k => k = true
         | None => x ∈ subs
         end.
Proof.
  induction ops as [|[w op] ops IH]; intros s subs Hg; simpl.
  - by exists subs.
  - rewrite (apply_op_state _ _ _ subs) by done.
    set (subs1 := if op_is_subscribe op then _ else _).
    destruct (IH (subscribed ws subs1 s) subs1) as (subs' & Hg' & Hmem).
    { unfold subscribed. simpl. apply dict_get_set_eq. }
    exists subs'. split; [done|]. intros x. rewrite Hmem.
    destruct (last_matching upper x (map snd ops)); [done|].
    unfold subs1.
    destruct (decide (upper (op_symbol op) = x)) as [<-|Hne];
      destruct (op_is_subscribe op); set_solver.
Qed.

(** C1. On a registered connection, [subscribe] inserts the uppercased
    symbol in the connection's set, and leaves the whole server state
    unchanged when the uppercased symbol is already a member;
    [unsubscribe] removes the uppercased symbol, and leaves the whole state
    unchanged when it is not a member. After any finite sequence of
    subscribe / unsubscribe operations on the connection, a string is in
    the connection's set exactly when the last operation whose uppercased
    symbol is that string was a subscribe or, when no operation matches
    it, when it was in the set before; starting from the empty set of a
    fresh registration, the final set is the set of uppercased symbols
    whose last matching operation was a subscribe. *)
Theorem subscription_set_semantics ws subs s :
  dict_get ws (clients s) = Some subs →
  (∀ w sym,
     subs_of ws (st (subscribe upper w ws (JStr sym) s)) = subs ∪ {[upper sym]} ∧
     (upper sym ∈ subs → st (subscribe upper w ws (JStr sym) s) = s) ∧
     subs_of ws (st (unsubscribe upper w ws (JStr sym) s)) = subs ∖ {[upper sym]} ∧
     (upper sym ∉ subs → st (unsubscribe upper w ws (JStr sym) s) = s)) ∧
  (∀ ops x,
     x ∈ subs_of ws (run_ops upper ws ops s) ↔
     match last_matching upper x (map snd ops) with
     | Some k => k = true
     | None => x ∈ subs
     end) ∧
  (subs = ∅ → ∀ ops x,
     x ∈ subs_of ws (run_ops upper ws ops s) ↔
     last_matching upper x (map snd ops) = Some true).
Proof.
  intros Hg.
  assert (Hall : ∀ ops x,
     x ∈ subs_of ws (run_ops upper ws ops s) ↔
     match last_matching upper x (map snd ops) with
     | Some k => k = true
     | None => x ∈ subs
     end).
  { intros ops x.
    destruct (run_ops_registered ws ops s subs Hg) as (subs' & Hg' & Hmem).
    unfold subs_of. rewrite Hg'. simpl. apply Hmem. }
  split_and!.
  - intros w sym. split_and!.
    + rewrite (subscribe_state _ _ _ subs) by done. apply subs_of_subscribed.
    + intros Hin. rewrite (subscribe_state _ _ _ subs) by done.
      rewrite <- (subscribed_same ws subs s Hg) at 2.
      f_equal. set_solver.
    + rewrite (unsubscribe_state _ _ _ subs) by done. apply subs_of_subscribed.
    + intros Hnin. rewrite (unsubscribe_state _ _ _ subs) by done.
      rewrite <- (subscribed_same ws subs s Hg) at 2.
      f_equal. set_solver.
  - exact Hall.
  - intros -> ops x. rewrite Hall.
    destruct (last_matching upper x (map snd ops)) as [[]|]; split;
      try done; try congruence; set_solver.
Qed.

(** C9. For a connection that is not in the registry, [subscribe] and
    [unsubscribe] return without raising, leave the server state (registry
    and cache) unchanged and do nothing to the outside world: no send, not
    even of a cached snapshot, and no log record. This holds for any
    symbol value, string or not. *)
Theorem unregistered_subscribe_unsubscribe_noop w ws symbol s :
  dict_get ws (clients s) = None →
  subscribe upper w ws symbol s = mkRes (Ret tt) s [] ∧
  unsubscribe upper w ws symbol s = mkRes (Ret tt) s [].
Proof.
  intros Hg. split.
  - by apply subscribe_unregistered.
  - by apply unsubscribe_unregistered.
Qed.
End Registry.

(** ** The message handler *)

Section Handler.
Variable upper : string -> string.
Variable json_loads : string -> outcome json.
Implicit Types (ws : websocket) (s : Server) (w : World).

Lemma local_to_same ws s o (t : list event) :
  Forall (fun e => is_disconnect e = false) t →
  Forall (fun x => x.1.1 = ws) (sends t) →
  local_to ws s (mkRes o s t).
Proof. intros. split_and!; [by left|done|done]. Qed.

Lemma subscribe_nonstring w ws symbol subs s :
  dict_get ws (clients s) = Some subs →
  py_upper upper symbol = Raise AttributeError →
  subscribe upper w ws symbol s = mkRes (Raise AttributeError) s [].
Proof.
  intros Hg Hup. unfold subscribe, add_subscription, dict_mem, dict_item.
  run_monad. repeat (progress (rewrite ?Hg, ?Hup; cbn)). done.
Qed.

Lemma unsubscribe_nonstring w ws symbol subs s :
  dict_get ws (clients s) = Some subs →
  py_upper upper symbol = Raise AttributeError →
  unsubscribe upper w ws symbol s = mkRes (Raise AttributeError) s [].
Proof.
  intros Hg Hup. unfold unsubscribe, dict_mem, dict_item.
  run_monad. repeat (progress (rewrite ?Hg, ?Hup; cbn)). done.
Qed.

Lemma py_upper_cases symbol :
  (∃ sym, symbol = JStr sym) ∨ py_upper upper symbol = Raise AttributeError.
Proof. destruct symbol; eauto. Qed.

Lemma subscribe_local w ws symbol s :
  local_to ws s (subscribe upper w ws symbol s).
Proof.
  destruct (dict_get ws (clients s)) as [subs|] eqn:Hg.
  - destruct (py_upper_cases symbol) as [[sym ->]|Hup].
    + rewrite (subscribe_registered _ _ _ _ subs) by done. cbn zeta.
      assert (Hst : ∀ o t, Forall (fun e => is_disconnect e = false) t →
                Forall (fun x => x.1.1 = ws) (sends t) →
                local_to ws s (mkRes o (subscribed ws (subs ∪ {[upper sym]}) s) t)).
      { intros o t ??. split_and!; [right|done|done].
        eexists. split; [congruence|done]. }
      destruct (stock_data s !! upper sym); [destruct (conn_closed w ws)|];
        apply Hst; cbn; repeat constructor.
    + rewrite (subscribe_nonstring _ _ _ subs) by done.
      by apply local_to_same.
  - rewrite subscribe_unregistered by done. by apply local_to_same.
Qed.

Lemma unsubscribe_local w ws symbol s :
  local_to ws s (unsubscribe upper w ws symbol s).
Proof.
  destruct (dict_get ws (clients s)) as [subs|] eqn:Hg.
  - destruct (py_upper_cases symbol) as [[sym ->]|Hup].
    + rewrite (unsubscribe_registered _ _ _ _ subs) by done.
      destruct (decide (upper sym ∈ subs)).
      * split_and!; [right|cbn; repeat constructor|cbn; constructor].
        eexists. split; [congruence|done].
      * by apply local_to_same.
    + rewrite (unsubscribe_nonstring _ _ _ subs) by done.
      by apply local_to_same.
  - rewrite unsubscribe_unregistered by done. by apply local_to_same.
Qed.

Lemma on_error_run message e s :
  ∃ r, on_error message e s = mkRes (Ret tt) s [EvLog ERROR r].
Proof. destruct e; eexists; reflexivity. Qed.

(** A body whose result is local stays local under the [except] clauses,
    and no longer raises. *)
Lemma caught_local ws s message (body : M unit) :
  local_to ws s (body s) →
  out (try_except body (on_error message) s) = Ret tt ∧
  local_to ws s (try_except body (on_error message) s).
Proof.
  intros (Hst & Hdis & Hsend). unfold try_except.
  destruct (body s) as [[[]|e] s' t]; cbn in *; [by repeat split|].
  destruct (on_error_run message e s') as [r ->]. cbn.
  split; [done|]. split_and!; cbn.
  - done.
  - apply Forall_app. split; [done|]. by repeat constructor.
  - unfold sends in *. rewrite omap_app. cbn. by rewrite app_nil_r.
Qed.

#[local] Arguments subscribe : simpl never.
#[local] Arguments unsubscribe : simpl never.
#[local] Arguments send : simpl never.

Lemma handle_message_try w ws message s :
  handle_message upper json_loads w ws message s =
  try_except
    (fun s0 => match json_loads message with
               | Ret (JObj fields) =>
                   if str_eq (action_of fields) "subscribe" then
                     let symbol := from_option id JNull (dict_get "symbol" fields) in
                     if truthy symbol then subscribe upper w ws symbol s0
                     else mkRes (Ret tt) s0 []
                   else if str_eq (action_of fields) "unsubscribe" then
                     let symbol := from_option id JNull (dict_get "symbol" fields) in
                     if truthy symbol then unsubscribe upper w ws symbol s0
                     else mkRes (Ret tt) s0 []
                   else if str_eq (action_of fields) "ping" then
                     send w ws (pong w) s0
                   else mkRes (Ret tt) s0
                          [EvLog WARNING (UnknownAction (action_of fields))]
               | Ret _ => mkRes (Raise AttributeError) s0 []
               | Raise e => mkRes (Raise e) s0 []
               end)
    (on_error message) s.
Proof.
  unfold handle_message, on_error, action_of, try_except, py_get. run_monad.
  destruct (json_loads message) as [data|e]; cbn; [|done].
  destruct data; cbn; try done.
  destruct (str_eq _ "subscribe"); cbn.
  { destruct (truthy _); cbn; [|done].
    by destruct (subscribe _ _ _ _ _) as [[[]|?] ? ?]. }
  destruct (str_eq _ "unsubscribe"); cbn.
  { destruct (truthy _); cbn; [|done].
    by destruct (unsubscribe _ _ _ _ _) as [[[]|?] ? ?]. }
  destruct (str_eq _ "ping"); cbn; [|done].
  by destruct (send _ _ _ _) as [[[]|?] ? ?].
Qed.

Lemma send_local w ws payload s : local_to ws s (send w ws payload s).
Proof.
  unfold send. run_monad.
  destruct (conn_closed w ws); cbn; apply local_to_same; cbn;
    by repeat constructor.
Qed.

Lemma handle_message_local w ws message s :
  out (handle_message upper json_loads w ws message s) = Ret tt ∧
  local_to ws s (handle_message upper json_loads w ws message s).
Proof.
  rewrite handle_message_try. apply caught_local.
  destruct (json_loads message) as [data|e]; [|by apply local_to_same].
  destruct data; try by apply local_to_same.
  destruct (str_eq _ "subscribe").
  { cbn zeta. destruct (truthy _);
      [apply subscribe_local | by apply local_to_same]. }
  destruct (str_eq _ "unsubscribe").
  { cbn zeta. destruct (truthy _);
      [apply unsubscribe_local | by apply local_to_same]. }
  destruct (str_eq _ "ping"); [apply send_local|].
  apply local_to_same; cbn; by repeat constructor.
Qed.

Lemma handle_message_rejected w ws message s :
  rejected json_loads message = true →
  ∃ lvl r, handle_message upper json_loads w ws message s
           = mkRes (Ret tt) s [EvLog lvl r] ∧ lvl ≠ INFO.
Proof.
  unfold rejected, recognized. intros Hrej. rewrite handle_message_try.
  unfold try_except.
  destruct (json_loads message) as [data|e]; cbn.
  - destruct data; cbn; try by (exists ERROR; eexists).
    apply negb_true_iff in Hrej.
    apply orb_false_iff in Hrej as [[-> ->]%orb_false_iff ->]. cbn.
    exists WARNING. by eexists.
  - destruct (on_error_run message e s) as [r ->]. cbn.
    exists ERROR, r. done.
Qed.

Lemma handle_all_app ws inbox1 inbox2 s :
  handle_all upper json_loads ws (inbox1 ++ inbox2) s =
  let a := handle_all upper json_loads ws inbox1 s in
  let b := handle_all upper json_loads ws inbox2 a.1 in
  (b.1, a.2 ++ b.2).
Proof.
  revert s. induction inbox1 as [|wm inbox1 IH]; intros s; cbn.
  - by destruct (handle_all _ _ _ _ _).
  - rewrite IH. cbn. by rewrite app_assoc.
Qed.

Lemma for_each_handle_all ws inbox s :
  for_each inbox (fun wm => handle_message upper json_loads wm.1 ws wm.2) s =
  mkRes (Ret tt) (handle_all upper json_loads ws inbox s).1
    (handle_all upper json_loads ws inbox s).2.
Proof.
  revert s. induction inbox as [|wm inbox IH]; intros s; cbn; [done|].
  unfold bind.
  destruct (handle_message_local wm.1 ws wm.2 s) as [-> _].
  by rewrite IH.
Qed.

Lemma handle_all_quiet ws inbox s :
  Forall (fun e => is_disconnect e = false)
    (handle_all upper json_loads ws inbox s).2.
Proof.
  revert s. induction inbox as [|wm inbox IH]; intros s; cbn; [done|].
  apply Forall_app. split; [|apply IH].
  by destruct (handle_message_local wm.1 ws wm.2 s) as (_ & _ & ? & _).
Qed.

Lemma handle_all_wf ws inbox s :
  dict_wf (clients s) →
  dict_wf (clients (handle_all upper json_loads ws inbox s).1).
Proof.
  revert s. induction inbox as [|wm inbox IH]; intros s Hwf; cbn; [done|].
  apply IH.
  destruct (handle_message_local wm.1 ws wm.2 s)
    as (_ & [->|(subs' & _ & ->)] & _); [done|].
  cbn. by apply dict_wf_set.
Qed.

Lemma unregister_trace ws s :
  ∃ n, tr (unregister ws s) = [EvLog INFO (ClientDisconnected n)].
Proof.
  destruct (dict_get ws (clients s)) eqn:Hg.
  - rewrite unregister_present by congruence. by eexists.
  - rewrite unregister_absent by done. by eexists.
Qed.

Lemma handler_run ws path inbox how s :
  handler upper json_loads ws path inbox how s =
  let s1 := st (register ws s) in
  let a := handle_all upper json_loads ws inbox s1 in
  mkRes (Ret tt) (st (unregister ws a.1))
    (tr (register ws s) ++ a.2 ++ tr (unregister ws a.1)).
Proof.
  cbn zeta. set (s1 := st (register ws s)).
  set (a := handle_all upper json_loads ws inbox s1).
  set (loop := for_each inbox
                 (fun wm => handle_message upper json_loads wm.1 ws wm.2)).
  assert (Hloop : loop s1 = mkRes (Ret tt) a.1 a.2)
    by apply for_each_handle_all.
  set (body := (loop ;; match how with
                        | ClosedOK => ret tt
                        | ClosedError => raise ConnectionClosed
                        end)%py).
  assert (Hbody : try_except_when is_ConnectionClosed body (fun _ => ret tt) s1
                  = mkRes (Ret tt) a.1 a.2).
  { unfold try_except_when, try_except, body, bind. rewrite Hloop.
    destruct how; cbn; by rewrite ?app_nil_r. }
  unfold handler. fold loop. fold body. unfold bind.
  rewrite register_run. cbn [out st tr].
  change (set_clients (dict_set ws ∅ (clients s)) s) with s1.
  unfold try_finally. rewrite Hbody. cbn [out st tr].
  by rewrite unregister_returns.
Qed.

Lemma filter_disconnect_quiet (t : list event) :
  Forall (fun e => is_disconnect e = false) t →
  filter (fun e => is_disconnect e = true) t = [].
Proof.
  induction 1 as [|e t He _ IH]; [done|].
  rewrite filter_cons_False; [done|]. by rewrite He.
Qed.

(** C8. A message that [json.loads] refuses, or whose JSON value is not an
    object, or whose action is not one of subscribe, unsubscribe and ping,
    is handled without raising, leaves the whole server state (registry
    and cache) as it was, sends nothing and writes exactly one log record,
    a warning or an error. No message at all makes [handle_message] raise.
    In [handler], the messages that come before and after such a message
    are all handled, the later ones from the state the earlier ones left;
    [handler] returns without raising however the connection closed, its
    trace holds one disconnection record, the last event, written by the
    one [unregister] of the [finally] clause, and the connection is no
    longer in the registry afterwards. *)
Theorem rejected_message_not_fatal w ws message s :
  rejected json_loads message = true →
  (∃ lvl r,
     handle_message upper json_loads w ws message s = mkRes (Ret tt) s [EvLog lvl r] ∧
     (lvl = WARNING ∨ lvl = ERROR)) ∧
  (∀ w' message' s',
     out (handle_message upper json_loads w' ws message' s') = Ret tt) ∧
  (∀ path before after how s0,
     let s1 := st (register ws s0) in
     let b := handle_all upper json_loads ws before s1 in
     let a := handle_all upper json_loads ws after b.1 in
     let r := handler upper json_loads ws path (before ++ (w, message) :: after) how s0 in
     out r = Ret tt ∧
     st r = st (unregister ws a.1) ∧
     (∃ lvl rec n,
        (lvl = WARNING ∨ lvl = ERROR) ∧
        tr r = tr (register ws s0) ++ b.2 ++ [EvLog lvl rec] ++ a.2 ++
               [EvLog INFO (ClientDisconnected n)]) ∧
     length (filter (fun e => is_disconnect e = true) (tr r)) = 1 ∧
     (dict_wf (clients s0) → dict_get ws (clients (st r)) = None)).
Proof.
  intros Hrej.
  assert (Hone : ∀ s2, ∃ lvl r,
            handle_message upper json_loads w ws message s2
            = mkRes (Ret tt) s2 [EvLog lvl r] ∧ (lvl = WARNING ∨ lvl = ERROR)).
  { intros s2.
    destruct (handle_message_rejected w ws message s2 Hrej) as (lvl & r & -> & Hl).
    exists lvl, r. split; [done|]. destruct lvl; auto. done. }
  split_and!; [apply Hone | intros; apply handle_message_local |].
  intros path before after how s0 s1 b a r. subst r.
  rewrite handler_run. cbn zeta. fold s1.
  rewrite handle_all_app. fold b. cbn zeta. cbn [handle_all fst snd].
  destruct (Hone b.1) as (lvl & rec & Hm & Hl). rewrite Hm. cbn [st tr].
  fold a. cbn [fst snd out st tr].
  destruct (unregister_trace ws a.1) as [n Hn]. rewrite Hn.
  split_and!.
  - done.
  - done.
  - exists lvl, rec, n. split; [done|]. by rewrite <- !app_assoc.
  - rewrite register_run. cbn [tr].
    rewrite !filter_app.
    rewrite (filter_disconnect_quiet b.2) by apply handle_all_quiet.
    rewrite (filter_disconnect_quiet a.2) by apply handle_all_quiet.
    destruct Hl as [-> | ->]; done.
  - intros Hwf. apply unregister_gone.
    apply handle_all_wf, handle_all_wf. subst s1. rewrite register_run.
    cbn. by apply dict_wf_set.
Qed.

(** C3. On a registered connection, [subscribe] with a string symbol whose
    uppercased form has a cached snapshot calls [send] exactly once, within
    the call itself, on that connection, with the message whose type is
    ["stock_update"], whose symbol is the uppercased symbol and whose data
    is the cached snapshot; the send is delivered
    unless the connection is already closed. When the uppercased symbol has
    no cached snapshot, [subscribe] sends nothing. The cache is unchanged
    in both cases. A subscribe message whose symbol is a non-empty string
    sends, through [handle_message], what [subscribe] sends. *)
Theorem subscribe_pushes_cached_snapshot w ws sym subs s :
  dict_get ws (clients s) = Some subs →
  (∀ data : snapshot, stock_data s !! upper sym = Some data →
     sends (tr (subscribe upper w ws (JStr sym) s)) =
     [(ws,
       JObj [("type", JStr "stock_update"); ("symbol", JStr (upper sym));
             ("data", JObj data)],
       negb (conn_closed w ws))]) ∧
  (stock_data s !! upper sym = None →
     sends (tr (subscribe upper w ws (JStr sym) s)) = []) ∧
  stock_data (st (subscribe upper w ws (JStr sym) s)) = stock_data s ∧
  (∀ message fields,
     json_loads message = Ret (JObj fields) →
     dict_get "action" fields = Some (JStr "subscribe") →
     dict_get "symbol" fields = Some (JStr sym) →
     sym ≠ "" →
     sends (tr (handle_message upper json_loads w ws message s)) =
     sends (tr (subscribe upper w ws (JStr sym) s)) ∧
     st (handle_message upper json_loads w ws message s) =
     st (subscribe upper w ws (JStr sym) s)).
Proof.
  intros Hg. split_and!.
  - intros data Hc. rewrite (subscribe_registered _ _ _ _ subs) by done.
    cbn zeta. rewrite Hc. by destruct (conn_closed w ws).
  - intros Hc. rewrite (subscribe_registered _ _ _ _ subs) by done.
    cbn zeta. by rewrite Hc.
  - by rewrite (subscribe_state _ _ _ _ subs).
  - intros message fields Hload Hact Hsym Hne.
    rewrite handle_message_try. unfold try_except, action_of.
    rewrite Hload, Hact, Hsym. cbn.
    assert (Htruthy : negb (String.eqb sym "") = true).
    { apply negb_true_iff. by apply String.eqb_neq. }
    rewrite Htruthy.
    destruct (subscribe upper w ws (JStr sym) s) as [[[]|e] s' t]; cbn; [done|].
    destruct (on_error_run message e s') as [r ->]. cbn.
    unfold sends. rewrite omap_app. cbn. by rewrite app_nil_r.
Qed.
End Handler.

(** ** The upstream fetcher *)

Section Fetcher.
Variable POLYGON_API_KEY : string.
Implicit Types (w : World) (symbol : string).

#[local] Abbreviation fetch_stock_data := (fetch_stock_data POLYGON_API_KEY).
#[local] Abbreviation trade_url := (trade_url POLYGON_API_KEY).

Lemma fetch_good w symbol res :
  results_of (http_get w (trade_url symbol)) = Some res →
  fetch_stock_data w symbol =
  (Some (snapshot_of res (now_iso w)), [EvHttpGet (trade_url symbol)]).
Proof.
  unfold results_of, fetch_stock_data, requests_get, response_json.
  intros Hres.
  destruct (http_get w (trade_url symbol)) as [|status [data|]]; try done.
  destruct data; try done. cbn.
  destruct (status =? 200)%Z; [|done]. cbn.
  destruct (dict_get "results" fields) as [[]|]; try done.
  destruct fields0; [done|]. by injection Hres as <-.
Qed.

Lemma fetch_bad w symbol :
  results_of (http_get w (trade_url symbol)) = None →
  (fetch_stock_data w symbol).1 = None ∧
  requests (fetch_stock_data w symbol).2 = [trade_url symbol].
Proof.
  unfold results_of, fetch_stock_data, requests_get, response_json.
  intros Hres.
  destruct (http_get w (trade_url symbol)) as [|status body]; [done|]. cbn.
  destruct (status =? 200)%Z eqn:Hst; [|done].
  apply Z.eqb_eq in Hst as ->.
  destruct body as [data|]; [|done]. cbn.
  destruct data; try done. cbn.
  destruct (dict_get "results" fields) as [v|]; [|done]. cbn.
  destruct v; try done; cbn.
  - by destruct b.
  - by destruct (negb (z =? 0)%Z).
  - by destruct f.
  - by destruct (negb (String.eqb s "")).
  - by destruct items.
  - by destruct fields0.
Qed.

Lemma fetch_run w symbol :
  (fetch_stock_data w symbol).1 =
    (λ res, snapshot_of res (now_iso w)) <$> results_of (http_get w (trade_url symbol)) ∧
  requests (fetch_stock_data w symbol).2 = [trade_url symbol].
Proof.
  destruct (results_of (http_get w (trade_url symbol))) as [res|] eqn:Hres.
  - by rewrite (fetch_good _ _ res).
  - by apply fetch_bad.
Qed.

Lemma fetch_truthy w symbol d :
  (fetch_stock_data w symbol).1 = Some d → data_truthy (Some d) = true.
Proof.
  destruct (fetch_run w symbol) as [-> _].
  destruct (results_of _); [|done]. by intros [= <-].
Qed.

(** C10. A snapshot that [fetch_stock_data] returns has exactly the six
    keys price, size, timestamp, exchange, conditions and updated_at, in
    that order. It comes from a response with status 200 whose JSON object
    has an object under ["results"]; each of the first five values is the
    value of the key p, s, t, x, c of that object when the key is there,
    and otherwise the default: the integer 0 for price, size, timestamp
    and exchange, the empty list for conditions. The value of updated_at
    is the clock's reading in the world of the call. *)
Theorem snapshot_fields_and_defaults w symbol snap :
  (fetch_stock_data w symbol).1 = Some snap →
  dict_keys snap = snapshot_keys ∧
  ∃ fields res,
    http_get w (trade_url symbol) = Response 200 (Some (JObj fields)) ∧
    dict_get "results" fields = Some (JObj res) ∧
    dict_get "price" snap = Some (from_option id (JInt 0) (dict_get "p" res)) ∧
    dict_get "size" snap = Some (from_option id (JInt 0) (dict_get "s" res)) ∧
    dict_get "timestamp" snap = Some (from_option id (JInt 0) (dict_get "t" res)) ∧
    dict_get "exchange" snap = Some (from_option id (JInt 0) (dict_get "x" res)) ∧
    dict_get "conditions" snap = Some (from_option id (JArr []) (dict_get "c" res)) ∧
    dict_get "updated_at" snap = Some (JStr (now_iso w)).
Proof.
  destruct (fetch_run w symbol) as [-> _].
  destruct (results_of _) as [res|] eqn:Hres; [|done].
  intros [= <-]. split; [done|].
  unfold results_of in Hres.
  destruct (http_get w (trade_url symbol)) as [|status [[]|]]; try done.
  destruct (status =? 200)%Z eqn:Hst; [|done].
  apply Z.eqb_eq in Hst as ->.
  destruct (dict_get "results" fields) as [[]|] eqn:Hr; try done.
  destruct fields0 as [|f fields0]; [done|]. injection Hres as <-.
  exists fields, (f :: fields0). by split_and!.
Qed.
End Fetcher.

(** ** The broadcast loop *)

Section BroadcastLoop.
Variable set_iter : gset string -> list string.
Variable POLYGON_API_KEY : string.
Hypothesis set_iter_spec : ∀ X : gset string, set_iter X ≡ₚ elements X.
Implicit Types (w : World) (symbol : string) (s : Server)
  (env : string -> World) (c : list (websocket * gset string)).

#[local] Abbreviation fetch_stock_data := (fetch_stock_data POLYGON_API_KEY).
#[local] Abbreviation trade_url := (trade_url POLYGON_API_KEY).
#[local] Abbreviation fetched := (fetched POLYGON_API_KEY).
#[local] Abbreviation symbol_trace := (symbol_trace POLYGON_API_KEY).
#[local] Abbreviation cache_after := (cache_after POLYGON_API_KEY).
#[local] Abbreviation broadcast_symbol := (broadcast_symbol POLYGON_API_KEY).
#[local] Abbreviation broadcast_cycle := (broadcast_cycle set_iter POLYGON_API_KEY).
#[local] Abbreviation broadcast_updates :=
  (broadcast_updates set_iter POLYGON_API_KEY).

Lemma set_stock_data_id s : set_stock_data (stock_data s) s = s.
Proof. by destruct s. Qed.

Lemma all_symbols_from (acc : gset string) (l : list (gset string)) x :
  x ∈ foldl (fun acc subscriptions => acc ∪ subscriptions) acc l ↔
  x ∈ acc ∨ ∃ subs, subs ∈ l ∧ x ∈ subs.
Proof.
  revert acc. induction l as [|subs l IH]; intros acc; cbn.
  - split; [by left|]. intros [?|(? & []%elem_of_nil & _)]. done.
  - rewrite IH, elem_of_union. split.
    + intros [[?|?]|(subs' & ? & ?)]; [by left| |].
      * right. exists subs. split; [apply list_elem_of_here|done].
      * right. exists subs'. split; [by apply list_elem_of_further|done].
    + intros [?|(subs' & [->|?]%elem_of_cons & ?)]; [by left; left| |].
      * by left; right.
      * right. by exists subs'.
Qed.

(** [all_symbols] is the union of the subscription sets. *)
Lemma elem_of_all_symbols c x :
  x ∈ all_symbols c ↔ ∃ item, item ∈ c ∧ x ∈ item.2.
Proof.
  unfold all_symbols. rewrite all_symbols_from. unfold dict_values. split.
  - intros [[]%not_elem_of_empty|(subs & Hin & Hx)].
    apply list_elem_of_fmap in Hin as (item & -> & Hin). by exists item.
  - intros (item & Hin & Hx). right. exists item.2. split; [|done].
    apply list_elem_of_fmap. by exists item.
Qed.

Lemma pushes_loop w symbol d c s :
  for_each c (fun item =>
    if decide (symbol ∈ item.2) then
      try_except_when is_ConnectionClosed
        (send w item.1 (stock_update symbol d)) (fun _ => ret tt)
    else ret tt) s
  = mkRes (Ret tt) s (pushes w symbol d c).
Proof.
  unfold pushes. induction c as [|item c IH]; [done|].
  cbn [for_each]. unfold bind at 1.
  destruct (decide (symbol ∈ item.2)) as [Hin|Hnin].
  - rewrite filter_cons_True by done.
    assert (Hsend : try_except_when is_ConnectionClosed
              (send w item.1 (stock_update symbol d)) (fun _ => ret tt) s
            = mkRes (Ret tt) s
                [EvSend item.1 (stock_update symbol d)
                   (negb (conn_closed w item.1))]).
    { unfold try_except_when, try_except, send. run_monad.
      by destruct (conn_closed w item.1). }
    rewrite Hsend. cbn [out st tr]. by rewrite IH.
  - rewrite filter_cons_False by done. cbn [ret out st tr]. by rewrite IH.
Qed.

Lemma broadcast_symbol_run w env symbol s :
  w = env symbol →
  broadcast_symbol w symbol s =
  mkRes (Ret tt)
    (match fetched env symbol with
     | Some d => set_stock_data (<[symbol := d]> (stock_data s)) s
     | None => s
     end)
    (symbol_trace env (clients s) symbol).
Proof.
  intros ->. unfold broadcast_symbol, symbol_trace,
    fetched.
  unfold bind at 1. unfold call. cbn [out st tr].
  destruct (fetch_stock_data (env symbol) symbol).1 as [d|] eqn:Hf; [|done].
  rewrite (fetch_truthy _ _ _ _ Hf).
  unfold bind, modify, get_self. cbn [out st tr].
  by rewrite pushes_loop.
Qed.

Lemma cache_after_cons env symbol symbols cache :
  cache_after env (symbol :: symbols) cache =
  cache_after env symbols (match fetched env symbol with
                           | Some d => <[symbol := d]> cache
                           | None => cache
                           end).
Proof. reflexivity. Qed.

Lemma symbols_loop env symbols : ∀ s,
  for_each symbols (fun symbol => broadcast_symbol (env symbol) symbol) s =
  mkRes (Ret tt)
    (set_stock_data (cache_after env symbols (stock_data s)) s)
    (concat (map (symbol_trace env (clients s)) symbols)).
Proof.
  induction symbols as [|symbol symbols IH]; intros s.
  - cbn. by rewrite set_stock_data_id.
  - cbn [for_each]. unfold bind.
    rewrite (broadcast_symbol_run _ env) by done. cbn [out st tr].
    rewrite IH. rewrite cache_after_cons. cbn [map concat].
    by destruct (fetched env symbol).
Qed.

Lemma broadcast_cycle_run env s :
  broadcast_cycle env s =
  let symbols := set_iter (all_symbols (clients s)) in
  mkRes (Ret tt)
    (set_stock_data (cache_after env symbols (stock_data s)) s)
    (concat (map (symbol_trace env (clients s)) symbols) ++ [EvSleep 5]).
Proof.
  unfold broadcast_cycle. unfold bind, get_self, emit.
  cbn [out st tr]. by rewrite symbols_loop.
Qed.

Lemma cache_after_lookup env symbols : ∀ cache x,
  cache_after env symbols cache !! x =
  if decide (x ∈ symbols)
  then match fetched env x with Some d => Some d | None => cache !! x end
  else cache !! x.
Proof.
  induction symbols as [|symbol symbols IH]; intros cache x.
  - by rewrite decide_False by apply not_elem_of_nil.
  - rewrite cache_after_cons, IH.
    destruct (decide (x = symbol)) as [->|Hne].
    + rewrite (decide_True (P := symbol ∈ symbol :: symbols))
        by apply list_elem_of_here.
      destruct (fetched env symbol) as [d|] eqn:Hf.
      * rewrite lookup_insert_eq. by destruct (decide _).
      * by destruct (decide _).
    + assert (Hl : (match fetched env symbol with
                    | Some d => <[symbol := d]> cache
                    | None => cache
                    end) !! x = cache !! x).
      { destruct (fetched env symbol); [by rewrite lookup_insert_ne|done]. }
      rewrite Hl.
      destruct (decide (x ∈ symbols)) as [Hin|Hnin].
      * by rewrite decide_True by by apply list_elem_of_further.
      * rewrite decide_False; [done|].
        intros [?|?]%elem_of_cons; done.
Qed.

Lemma set_iter_elem X x : x ∈ set_iter X ↔ x ∈ X.
Proof. by rewrite (set_iter_spec X), elem_of_elements. Qed.

Lemma set_iter_NoDup X : NoDup (set_iter X).
Proof. rewrite (set_iter_spec X). apply NoDup_elements. Qed.

Lemma set_iter_empty : set_iter ∅ = [].
Proof.
  apply Permutation_nil_r. rewrite (set_iter_spec ∅). by rewrite elements_empty.
Qed.

Lemma elem_of_concat_map {A B} (f : A → list B) (l : list A) (y : B) :
  y ∈ concat (map f l) ↔ ∃ x, x ∈ l ∧ y ∈ f x.
Proof.
  induction l as [|a l IH]; cbn.
  - split; [by intros ?%elem_of_nil | by intros (? & ?%elem_of_nil & _)].
  - rewrite elem_of_app, IH. split.
    + intros [?|(x & ? & ?)].
      * exists a. split; [apply list_elem_of_here|done].
      * exists x. split; [by apply list_elem_of_further|done].
    + intros (x & [->|?]%elem_of_cons & ?); [by left|].
      right. by exists x.
Qed.

Lemma fetch_trace w symbol :
  ∃ rest, (fetch_stock_data w symbol).2 = EvHttpGet (trade_url symbol) :: rest ∧
          sends rest = [] ∧ requests rest = [].
Proof.
  unfold fetch_stock_data. cbv zeta.
  match goal with
  | |- context [match ?a with Ret _ => _ | Raise _ => _ end] => destruct a
  end; eexists; split; done.
Qed.

Lemma pushes_sends w symbol d c :
  sends (pushes w symbol d c) =
  map (fun item => (item.1, stock_update symbol d, negb (conn_closed w item.1)))
      (filter (fun item => symbol ∈ item.2) c).
Proof.
  unfold pushes. induction (filter _ c) as [|item l IH]; [done|].
  cbn. by rewrite <- IH.
Qed.

Lemma pushes_requests w symbol d c : requests (pushes w symbol d c) = [].
Proof. unfold pushes. by induction (filter _ c). Qed.

Lemma symbol_trace_sends env c symbol :
  sends (symbol_trace env c symbol) =
  match fetched env symbol with
  | Some d =>
      map (fun item => (item.1, stock_update symbol d,
                        negb (conn_closed (env symbol) item.1)))
          (filter (fun item => symbol ∈ item.2) c)
  | None => []
  end.
Proof.
  unfold symbol_trace, sends.
  destruct (fetch_trace (env symbol) symbol) as (rest & -> & Hs & _).
  rewrite omap_app. cbn. fold (sends rest). rewrite Hs. cbn.
  destruct (fetched env symbol); [apply pushes_sends|done].
Qed.

Lemma symbol_trace_requests env c symbol :
  requests (symbol_trace env c symbol) = [trade_url symbol].
Proof.
  unfold symbol_trace, requests.
  destruct (fetch_trace (env symbol) symbol) as (rest & -> & _ & Hr).
  rewrite omap_app. cbn. fold (requests rest). rewrite Hr. cbn.
  destruct (fetched env symbol); [|done].
  fold (requests (pushes (env symbol) symbol s c)).
  by rewrite pushes_requests.
Qed.

Lemma cycle_requests env c symbols :
  requests (concat (map (symbol_trace env c) symbols) ++ [EvSleep 5]) =
  map trade_url symbols.
Proof.
  unfold requests. rewrite omap_app. cbn. rewrite app_nil_r.
  induction symbols as [|symbol symbols IH]; [done|].
  cbn. rewrite omap_app, IH. fold (requests (symbol_trace env c symbol)).
  by rewrite symbol_trace_requests.
Qed.

Lemma cycle_sends env c symbols x :
  x ∈ sends (concat (map (symbol_trace env c) symbols) ++ [EvSleep 5]) ↔
  ∃ symbol, symbol ∈ symbols ∧ x ∈ sends (symbol_trace env c symbol).
Proof.
  unfold sends. rewrite omap_app. cbn. rewrite app_nil_r.
  rewrite list_elem_of_omap. split.
  - intros (e & (symbol & Hin & He)%elem_of_concat_map & Hf).
    exists symbol. split; [done|]. apply list_elem_of_omap. by exists e.
  - intros (symbol & Hin & (e & He & Hf)%list_elem_of_omap).
    exists e. split; [|done]. apply elem_of_concat_map. by exists symbol.
Qed.

Lemma broadcast_updates_stopped envs s :
  running s = false →
  broadcast_updates envs s = mkRes (Ret LoopExited) s [].
Proof.
  intros Hr. destruct envs; cbn; unfold bind, get_self; cbn;
    by rewrite Hr.
Qed.

Lemma broadcast_updates_step env envs s :
  running s = true →
  broadcast_updates (env :: envs) s =
  let r := broadcast_cycle env s in
  let r' := broadcast_updates envs (st r) in
  mkRes (out r') (st r') (tr r ++ tr r').
Proof.
  intros Hr.
  change (broadcast_updates (env :: envs)) with
    (s0 <- get_self ;;
     if running s0 then (broadcast_cycle env ;; broadcast_updates envs)
     else ret LoopExited)%py.
  unfold bind at 1. unfold get_self. cbn [out st tr]. rewrite Hr.
  unfold bind. by rewrite broadcast_cycle_run.
Qed.

Lemma broadcast_updates_keeps_running envs : ∀ s,
  running s = true →
  out (broadcast_updates envs s) = Ret LoopStillRunning.
Proof.
  induction envs as [|env envs IH]; intros s Hr.
  - cbn. unfold bind, get_self. cbn. by rewrite Hr.
  - rewrite broadcast_updates_step by done. cbn zeta. cbn [out].
    apply IH. by rewrite broadcast_cycle_run.
Qed.

(** C4. When every subscription set of the registry is empty (no
    connection at all included), a cycle calls [requests.get] not once,
    leaves the cache, and the whole state, as it was, and only sleeps. *)
Theorem idle_cycle_fetches_nothing env s :
  (∀ item, item ∈ clients s → item.2 = ∅) →
  all_symbols (clients s) = ∅ ∧
  broadcast_cycle env s = mkRes (Ret tt) s [EvSleep 5] ∧
  requests (tr (broadcast_cycle env s)) = [] ∧
  stock_data (st (broadcast_cycle env s)) = stock_data s.
Proof.
  intros Hempty.
  assert (Hall : all_symbols (clients s) = ∅).
  { apply set_eq. intros x. rewrite elem_of_all_symbols. split.
    - intros (item & Hin & Hx). by rewrite (Hempty item Hin) in Hx.
    - by intros ?%not_elem_of_empty. }
  assert (Hrun : broadcast_cycle env s = mkRes (Ret tt) s [EvSleep 5]).
  { rewrite broadcast_cycle_run. cbn zeta. rewrite Hall, set_iter_empty.
    cbn. by rewrite set_stock_data_id. }
  split_and!; [done|done| |]; by rewrite Hrun.
Qed.

(** C2. In one cycle, let A and B be two distinct subscribed symbols such
    that the fetch of A returns no snapshot and the fetch of B returns one.
    The cycle returns without raising and leaves the registry and the
    [running] flag as they were, so that the loop goes on to the next
    cycle. After it the cache holds B's new snapshot, and a send of the
    message with type ["stock_update"], symbol B and that snapshot as data
    has been made on every connection whose set holds B (delivered unless
    that connection is closed). The cache entry of A is what it was. Every
    send of the cycle is such a message, for a subscribed symbol and with
    the snapshot its fetch returned as data: none is about A and none
    carries an error. *)
Theorem fetch_failure_isolated env s A B snap :
  A ∈ all_symbols (clients s) →
  B ∈ all_symbols (clients s) →
  A ≠ B →
  fetched env A = None →
  fetched env B = Some snap →
  let r := broadcast_cycle env s in
  out r = Ret tt ∧
  clients (st r) = clients s ∧
  running (st r) = running s ∧
  stock_data (st r) !! B = Some snap ∧
  (∀ ws subs,
     dict_get ws (clients s) = Some subs → B ∈ subs →
     (ws,
      JObj [("type", JStr "stock_update"); ("symbol", JStr B);
            ("data", JObj snap)],
      negb (conn_closed (env B) ws)) ∈ sends (tr r)) ∧
  stock_data (st r) !! A = stock_data s !! A ∧
  (∀ ws payload delivered,
     (ws, payload, delivered) ∈ sends (tr r) →
     ∃ symbol data,
       payload = JObj [("type", JStr "stock_update"); ("symbol", JStr symbol);
                       ("data", JObj data)] ∧
       symbol ≠ A ∧
       symbol ∈ all_symbols (clients s) ∧ fetched env symbol = Some data) ∧
  (running s = true →
   ∀ envs, out (broadcast_updates (env :: envs) s) = Ret LoopStillRunning).
Proof.
  intros HA HB Hne HfA HfB r. subst r. rewrite broadcast_cycle_run.
  cbn zeta. cbn [out st tr].
  set (symbols := set_iter (all_symbols (clients s))).
  assert (HinA : A ∈ symbols) by by apply set_iter_elem.
  assert (HinB : B ∈ symbols) by by apply set_iter_elem.
  split_and!.
  - done.
  - done.
  - done.
  - cbn. rewrite cache_after_lookup, decide_True by done. by rewrite HfB.
  - intros ws subs Hg Hsub. apply cycle_sends. exists B. split; [done|].
    rewrite symbol_trace_sends, HfB.
    apply list_elem_of_fmap. exists (ws, subs). split; [done|].
    apply list_elem_of_filter. split; [done|].
    by apply dict_get_Some_elem.
  - cbn. rewrite cache_after_lookup, decide_True by done. by rewrite HfA.
  - intros ws payload delivered (symbol & Hin & Hx)%cycle_sends.
    rewrite symbol_trace_sends in Hx.
    destruct (fetched env symbol) as [data|] eqn:Hf;
      [|by apply elem_of_nil in Hx].
    apply list_elem_of_fmap in Hx as (item & [= -> -> ->] & _).
    exists symbol, data. split_and!; [done| |by apply set_iter_elem|done].
    intros ->. congruence.
  - intros Hr envs. by apply broadcast_updates_keeps_running.
Qed.

(** C6. One call of [fetch_stock_data] calls [requests.get] exactly once,
    on the symbol's URL, whatever the answer. It returns a snapshot exactly
    when the answer has status 200 and a JSON object whose ["results"] is a
    non-empty object; a transport failure, another status, a body that is
    not JSON, an object without ["results"] or with an empty or null one
    give [None], and the exception, if any, is caught inside (the function
    returns a value in every case). In a cycle, [requests.get] is called
    once for each symbol of the union of the subscription sets, each symbol
    being there once, whether its fetch succeeds or not; the cycle leaves
    the registry as it was, so that the next cycle requests the same
    symbols again, the failed ones included. *)
Theorem fetch_one_request_no_retry w symbol :
  (requests (fetch_stock_data w symbol).2 = [trade_url symbol] ∧
  (is_Some (fetch_stock_data w symbol).1 ↔
   good_response (http_get w (trade_url symbol)) = true) ∧
  (http_get w (trade_url symbol) = TransportFailure →
   (fetch_stock_data w symbol).1 = None) ∧
  (∀ status body,
     http_get w (trade_url symbol) = Response status body → status ≠ 200%Z →
     (fetch_stock_data w symbol).1 = None) ∧
  (∀ status, http_get w (trade_url symbol) = Response status None →
     (fetch_stock_data w symbol).1 = None) ∧
  (∀ status fields,
     http_get w (trade_url symbol) = Response status (Some (JObj fields)) →
     dict_get "results" fields = None ∨
     dict_get "results" fields = Some JNull ∨
     dict_get "results" fields = Some (JObj []) →
     (fetch_stock_data w symbol).1 = None)) ∧
  (∀ env s,
     let r := broadcast_cycle env s in
     let symbols := set_iter (all_symbols (clients s)) in
     requests (tr r) = map trade_url symbols ∧
     NoDup symbols ∧
     (∀ x, x ∈ symbols ↔ x ∈ all_symbols (clients s)) ∧
     clients (st r) = clients s ∧
     ∀ env', requests (tr (broadcast_cycle env' (st r))) = map trade_url symbols).
Proof.
  split; [|intros env s r symbols; subst r symbols; split_and!].
  2:{ rewrite broadcast_cycle_run. apply cycle_requests. }
  2:{ apply set_iter_NoDup. }
  2:{ intros x. apply set_iter_elem. }
  2:{ by rewrite broadcast_cycle_run. }
  2:{ intros env'. rewrite (broadcast_cycle_run env'), (broadcast_cycle_run env).
      cbn zeta. cbn [st clients set_stock_data]. apply cycle_requests. }
  destruct (fetch_run POLYGON_API_KEY w symbol) as [Hv Hreq]. rewrite Hv.
  unfold good_response. split_and!.
  - done.
  - destruct (results_of _); cbn.
    + split; [done | by eexists].
    + split; [intros [? [=]] | done].
  - by intros ->.
  - intros status body -> Hne. cbn.
    destruct body as [[]|]; try done.
    apply Z.eqb_neq in Hne. by rewrite Hne.
  - by intros status ->.
  - intros status fields -> Hmiss. cbn.
    destruct (status =? 200)%Z; [|done].
    by destruct Hmiss as [-> | [-> | ->]].
Qed.
End BroadcastLoop.

(** ** The lifecycle manager *)

Lemma stop_run srv :
  stop srv =
  mkRes (Ret tt)
    (match server srv with
     | Some _ => set_server (Some Closed) (set_running false srv)
     | None => set_running false srv
     end)
    [EvLog INFO ServerStopped].
Proof. unfold stop. run_monad. cbn. by destruct (server srv). Qed.

(** C7 (the code departs from it). [stop_server] of the manager changes the
    manager's own flag and nothing else: the server object of the background
    thread is the one it was, for every process. On the process in which the
    server is serving, after [stop_server] the server's [running] flag is
    still true, so the broadcast loop goes on, and its listening socket is
    still open. [stop] of the server object, which [stop_server] does not
    call, is what clears the flag, ends the loop at its next test and closes
    the socket. *)
Theorem manager_stop_server_leaves_server_running :
  (∀ p, Manager.instance (Manager.stop_server p).1 = Manager.instance p) ∧
  (let p' := (Manager.stop_server serving_process).1 in
   Manager.server_running (Manager.manager p') = false ∧
   Manager.still_serving p' = true ∧
   ∃ srv, Manager.instance p' = Some srv ∧
          running srv = true ∧ server srv = Some Listening ∧
          ∀ set_iter key envs,
            out (broadcast_updates set_iter key envs srv) = Ret LoopStillRunning) ∧
  (∀ srv, running (st (stop srv)) = false ∧
          server (st (stop srv)) =
            match server srv with Some _ => Some Closed | None => None end ∧
          ∀ set_iter key envs,
            broadcast_updates set_iter key envs (st (stop srv)) =
            mkRes (Ret LoopExited) (st (stop srv)) []).
Proof.
  split_and!.
  - intros [[[t|] []] inst]; reflexivity.
  - cbn. split_and!; [done|done|]. eexists. split_and!; [done|done|done|].
    intros set_iter key envs. by apply broadcast_updates_keeps_running.
  - intros srv. rewrite stop_run. cbn [st].
    destruct srv as [h p c d r [l|] u]; cbn;
      (split_and!; [done | done | intros; by apply broadcast_updates_stopped]).
Qed.

(** ** The properties at work on the small system *)

Lemma elements_iter (X : gset string) : elements X ≡ₚ elements X.
Proof. reflexivity. Defined.

Lemma registry_register_unregister_safe_witness :
  dict_wf (clients sample_server) ∧
  st (unregister 7 sample_server) = sample_server ∧
  dict_get 1 (clients (st (register 1 sample_server))) = Some ∅.
Proof.
  assert (Hwf : dict_wf (clients sample_server)).
  { unfold dict_wf. cbn. repeat constructor; set_solver. }
  destruct (registry_register_unregister_safe 7 sample_server Hwf)
    as (Habs & _).
  destruct (registry_register_unregister_safe 1 sample_server Hwf)
    as (_ & _ & _ & _ & _ & _ & Hreg & _).
  split_and!; [done| |done]. by apply Habs.
Defined.

Lemma subscription_set_semantics_witness :
  dict_get 1 (clients sample_server) = Some {["AAPL"; "MSFT"]} ∧
  ("TSLA" ∈ subs_of 1 (run_ops ascii_upper_string 1
                         [(sample_world, OpSubscribe "tsla");
                          (sample_world, OpUnsubscribe "Tsla");
                          (sample_world, OpSubscribe "TSLA")] sample_server)) ∧
  ("MSFT" ∉ subs_of 1 (run_ops ascii_upper_string 1
                         [(sample_world, OpSubscribe "msft");
                          (sample_world, OpSubscribe "msft");
                          (sample_world, OpUnsubscribe "MSFT")] sample_server)).
Proof.
  assert (Hg : dict_get 1 (clients sample_server) = Some {["AAPL"; "MSFT"]})
    by reflexivity.
  destruct (subscription_set_semantics ascii_upper_string 1 _ sample_server Hg)
    as (_ & Hall & _).
  split_and!; [done| |].
  - apply Hall. reflexivity.
  - intros Hin. apply Hall in Hin. discriminate Hin.
Defined.

Lemma unregistered_subscribe_unsubscribe_noop_witness :
  dict_get 7 (clients sample_server) = None ∧
  subscribe ascii_upper_string sample_world 7 (JStr "msft") sample_server
  = mkRes (Ret tt) sample_server [].
Proof.
  split; [reflexivity|].
  apply (unregistered_subscribe_unsubscribe_noop ascii_upper_string
           sample_world 7 (JStr "msft") sample_server).
  reflexivity.
Defined.

Lemma rejected_message_not_fatal_witness :
  rejected sample_loads "oops" = true ∧
  ∃ lvl r, handle_message ascii_upper_string sample_loads sample_world 1 "oops"
             sample_server = mkRes (Ret tt) sample_server [EvLog lvl r] ∧
           (lvl = WARNING ∨ lvl = ERROR).
Proof.
  split; [reflexivity|].
  apply (rejected_message_not_fatal ascii_upper_string sample_loads
           sample_world 1 "oops" sample_server).
  reflexivity.
Defined.

Lemma subscribe_pushes_cached_snapshot_witness :
  dict_get 1 (clients sample_server) = Some {["AAPL"; "MSFT"]} ∧
  sends (tr (subscribe ascii_upper_string sample_world 1 (JStr "msft") sample_server))
  = [(1,
      JObj [("type", JStr "stock_update"); ("symbol", JStr "MSFT");
            ("data",
             JObj [("price", JInt 150); ("size", JInt 10);
                   ("timestamp", JInt 0); ("exchange", JInt 0);
                   ("conditions", JArr []);
                   ("updated_at", JStr "2024-01-01T00:00:00")])],
      true)].
Proof.
  split; [reflexivity|].
  apply (subscribe_pushes_cached_snapshot ascii_upper_string sample_loads
           sample_world 1 "msft" {["AAPL"; "MSFT"]} sample_server).
  - reflexivity.
  - reflexivity.
Defined.

Lemma snapshot_fields_and_defaults_witness :
  (fetch_stock_data sample_key sample_world "MSFT").1
  = Some (snapshot_of sample_trade (now_iso sample_world)) ∧
  dict_keys (snapshot_of sample_trade (now_iso sample_world)) = snapshot_keys.
Proof.
  split; [reflexivity|].
  apply (snapshot_fields_and_defaults sample_key sample_world "MSFT").
  reflexivity.
Defined.

Lemma idle_cycle_fetches_nothing_witness :
  (∀ item, item ∈ clients (st (register 3 (init_server "localhost" 8765))) →
           item.2 = ∅) ∧
  requests (tr (broadcast_cycle elements sample_key (fun _ => sample_world)
                  (st (register 3 (init_server "localhost" 8765))))) = [].
Proof.
  assert (Hempty : ∀ item,
            item ∈ clients (st (register 3 (init_server "localhost" 8765))) →
            item.2 = ∅).
  { intros item Hin. cbn in Hin. by apply list_elem_of_singleton in Hin as ->. }
  split; [exact Hempty|].
  apply (idle_cycle_fetches_nothing elements sample_key elements_iter
           (fun _ => sample_world) _ Hempty).
Defined.

Lemma fetch_failure_isolated_witness :
  "AAPL" ∈ all_symbols (clients sample_server) ∧
  "MSFT" ∈ all_symbols (clients sample_server) ∧
  fetched sample_key (fun _ => sample_world) "AAPL" = None ∧
  stock_data (st (broadcast_cycle elements sample_key (fun _ => sample_world)
                    sample_server)) !! "MSFT"
  = Some (snapshot_of sample_trade (now_iso sample_world)) ∧
  (1,
   JObj [("type", JStr "stock_update"); ("symbol", JStr "MSFT");
         ("data",
          JObj [("price", JInt 150); ("size", JInt 10);
                ("timestamp", JInt 0); ("exchange", JInt 0);
                ("conditions", JArr []);
                ("updated_at", JStr "2024-01-02T03:04:05")])],
   true)
    ∈ sends (tr (broadcast_cycle elements sample_key (fun _ => sample_world)
                   sample_server)) ∧
  (2,
   JObj [("type", JStr "stock_update"); ("symbol", JStr "MSFT");
         ("data",
          JObj [("price", JInt 150); ("size", JInt 10);
                ("timestamp", JInt 0); ("exchange", JInt 0);
                ("conditions", JArr []);
                ("updated_at", JStr "2024-01-02T03:04:05")])],
   false)
    ∈ sends (tr (broadcast_cycle elements sample_key (fun _ => sample_world)
                   sample_server)).
Proof.
  assert (HA : "AAPL" ∈ all_symbols (clients sample_server)).
  { unfold all_symbols. cbn. set_solver. }
  assert (HB : "MSFT" ∈ all_symbols (clients sample_server)).
  { unfold all_symbols. cbn. set_solver. }
  assert (Hne : "AAPL" ≠ "MSFT") by discriminate.
  assert (HfA : fetched sample_key (fun _ => sample_world) "AAPL" = None)
    by reflexivity.
  assert (HfB : fetched sample_key (fun _ => sample_world) "MSFT"
                = Some (snapshot_of sample_trade (now_iso sample_world)))
    by reflexivity.
  destruct (fetch_failure_isolated elements sample_key elements_iter
              (fun _ => sample_world) sample_server "AAPL" "MSFT"
              (snapshot_of sample_trade (now_iso sample_world))
              HA HB Hne HfA HfB) as (_ & _ & _ & Hcache & Hpush & _).
  split_and!; [done|done|done|exact Hcache| |].
  - apply (Hpush 1 {["AAPL"; "MSFT"]}); [reflexivity|set_solver].
  - apply (Hpush 2 {["MSFT"]}); [reflexivity|set_solver].
Defined.

Lemma fetch_one_request_no_retry_witness :
  (∀ X : gset string, elements X ≡ₚ elements X) ∧
  requests (fetch_stock_data sample_key sample_world "AAPL").2
  = [trade_url sample_key "AAPL"] ∧
  (fetch_stock_data sample_key sample_world "AAPL").1 = None.
Proof.
  split; [exact elements_iter|].
  destruct (fetch_one_request_no_retry elements sample_key elements_iter
              sample_world "AAPL") as [(Hreq & _ & Hfail & _) _].
  split; [exact Hreq|]. apply Hfail. reflexivity.
Defined.


(** * Further properties of the two modules *)

(** ** More on dictionaries *)

Section PyDictMore.
Context {K V : Type} `{EqDecision K}.
Implicit Types (k : K) (v : V) (d : list (K * V)).

Lemma dict_set_set k v v' d : dict_set k v (dict_set k v' d) = dict_set k v d.
Proof.
  induction d as [|[k0 v0] d IH]; simpl.
  - by rewrite decide_True.
  - destruct (decide (k = k0)) as [->|Hne]; simpl.
    + by rewrite decide_True.
    + by rewrite decide_False, IH.
Qed.

Lemma dict_remove_set_absent k v d :
  dict_get k d = None → dict_remove k (dict_set k v d) = d.
Proof.
  induction d as [|[k0 v0] d IH]; simpl.
  - by rewrite decide_True.
  - destruct (decide (k = k0)) as [->|Hne]; [done|]. simpl.
    intros Hg. by rewrite decide_False, IH.
Qed.

Lemma elem_of_dict_set k v d x : x ∈ dict_set k v d → x = (k, v) ∨ x ∈ d.
Proof.
  induction d as [|[k0 v0] d IH]; simpl.
  - intros ->%list_elem_of_singleton. by left.
  - destruct (decide (k = k0)) as [->|Hne].
    + intros [->|?]%elem_of_cons; [by left|]. right. by apply list_elem_of_further.
    + intros [->|Hx]%elem_of_cons; [right; apply list_elem_of_here|].
      destruct (IH Hx); [by left|]. right. by apply list_elem_of_further.
Qed.

Lemma elem_of_dict_remove k d x : x ∈ dict_remove k d → x ∈ d.
Proof.
  induction d as [|[k0 v0] d IH]; simpl; [done|].
  destruct (decide (k = k0)) as [->|Hne].
  - apply list_elem_of_further.
  - intros [->|Hx]%elem_of_cons; [apply list_elem_of_here|].
    apply list_elem_of_further. auto.
Qed.

Lemma dict_filter_key k v d :
  dict_wf d → dict_get k d = Some v → filter (fun item => item.1 = k) d = [(k, v)].
Proof.
  unfold dict_wf. induction d as [|[k0 v0] d IH]; simpl; [done|].
  intros [Hnotin Hnd]%NoDup_cons.
  destruct (decide (k = k0)) as [->|Hne].
  - intros [= ->]. rewrite filter_cons_True by done. f_equal.
    clear IH Hnd. induction d as [|[k1 v1] d IH]; [done|].
    simpl in Hnotin. apply not_elem_of_cons in Hnotin as [Hne Hnotin].
    rewrite filter_cons_False by (simpl; congruence). by apply IH.
  - intros Hg. rewrite filter_cons_False by (simpl; congruence). by apply IH.
Qed.

Lemma dict_filter_key_absent k d :
  dict_get k d = None → filter (fun item => item.1 = k) d = [].
Proof.
  induction d as [|[k0 v0] d IH]; simpl; [done|].
  destruct (decide (k = k0)) as [->|Hne]; [done|].
  intros Hg. rewrite filter_cons_False by (simpl; congruence). by apply IH.
Qed.
End PyDictMore.

(** ** More on the message handler *)

Section HandlerMore.
Variable upper : string -> string.
Variable json_loads : string -> outcome json.
Implicit Types (ws : websocket) (s : Server) (w : World).

#[local] Arguments subscribe : simpl never.
#[local] Arguments unsubscribe : simpl never.
#[local] Arguments send : simpl never.

Lemma subscribed_subscribed ws subs subs' s :
  subscribed ws subs (subscribed ws subs' s) = subscribed ws subs s.
Proof. unfold subscribed. cbn. by rewrite dict_set_set. Qed.

Lemma caught_state message (body : M unit) s :
  st (try_except body (on_error message) s) = st (body s) ∧
  out (try_except body (on_error message) s) = Ret tt.
Proof.
  unfold try_except. destruct (body s) as [[[]|e] s' t]; cbn; [done|].
  by destruct (on_error_run message e s') as [r ->].
Qed.

(** What a message can do to the state: nothing, or one insertion or one
    removal of an uppercased symbol in the set of its own connection. *)
Lemma handle_message_effect w ws message s :
  st (handle_message upper json_loads w ws message s) = s ∨
  ∃ subs sym,
    dict_get ws (clients s) = Some subs ∧
    (st (handle_message upper json_loads w ws message s)
       = subscribed ws (subs ∪ {[upper sym]}) s ∨
     st (handle_message upper json_loads w ws message s)
       = subscribed ws (subs ∖ {[upper sym]}) s).
Proof.
  rewrite handle_message_try.
  match goal with
  | |- context [try_except ?b _ _] => destruct (caught_state message b s) as [-> _]
  end.
  destruct (json_loads message) as [data|e]; [|by left].
  destruct data; try by left.
  destruct (str_eq _ "subscribe").
  { cbn zeta. destruct (truthy _); [|by left].
    set (symbol := from_option id JNull (dict_get "symbol" fields)).
    destruct (dict_get ws (clients s)) as [subs|] eqn:Hg.
    - destruct (py_upper_cases upper symbol) as [[sym ->]|Hup].
      + right. exists subs, sym. split; [done|]. left.
        by apply subscribe_state.
      + left. by rewrite (subscribe_nonstring _ _ _ _ subs).
    - left. by rewrite subscribe_unregistered. }
  destruct (str_eq _ "unsubscribe").
  { cbn zeta. destruct (truthy _); [|by left].
    set (symbol := from_option id JNull (dict_get "symbol" fields)).
    destruct (dict_get ws (clients s)) as [subs|] eqn:Hg.
    - destruct (py_upper_cases upper symbol) as [[sym ->]|Hup].
      + right. exists subs, sym. split; [done|]. right.
        by apply unsubscribe_state.
      + left. by rewrite (unsubscribe_nonstring _ _ _ _ subs).
    - left. by rewrite unsubscribe_unregistered. }
  destruct (str_eq _ "ping"); [|by left].
  left. unfold send. run_monad. by destruct (conn_closed w ws).
Qed.

(** X1. A ping message is answered on its own connection with one [pong]
    that carries the clock's reading; the state is untouched and the
    connection need not be registered. On a closed socket the send fails,
    the exception is caught and logged as an error, and nothing is raised. *)
Theorem ping_answered_with_pong w ws message fields s :
  json_loads message = Ret (JObj fields) →
  dict_get "action" fields = Some (JStr "ping") →
  handle_message upper json_loads w ws message s =
  if conn_closed w ws
  then mkRes (Ret tt) s
         [EvSend ws (JObj [("type", JStr "pong"); ("timestamp", JStr (now_iso w))]) false;
          EvLog ERROR (ErrorHandlingMessage ConnectionClosed)]
  else mkRes (Ret tt) s
         [EvSend ws (JObj [("type", JStr "pong"); ("timestamp", JStr (now_iso w))]) true].
Proof.
  intros Hload Hact. rewrite handle_message_try. unfold try_except, action_of.
  rewrite Hload, Hact. cbn. unfold send, pong. run_monad.
  by destruct (conn_closed w ws).
Qed.

(** X2. Whatever the message, handling it for one connection leaves the
    entry of every other connection, the list of registered connections,
    the cache, the [running] flag and the listener as they were, and every
    send it makes is addressed to that one connection. *)
Theorem message_touches_own_connection_only w ws ws' message s :
  ws' ≠ ws →
  let r := handle_message upper json_loads w ws message s in
  dict_get ws' (clients (st r)) = dict_get ws' (clients s) ∧
  dict_keys (clients (st r)) = dict_keys (clients s) ∧
  stock_data (st r) = stock_data s ∧
  running (st r) = running s ∧
  server (st r) = server s ∧
  Forall (fun x => x.1.1 = ws) (sends (tr r)).
Proof.
  intros Hne r. subst r.
  destruct (handle_message_local upper json_loads w ws message s)
    as (_ & _ & _ & Hsends).
  assert (Hsub : ∀ subs0 subs', dict_get ws (clients s) = Some subs0 →
            dict_get ws' (clients (subscribed ws subs' s)) = dict_get ws' (clients s) ∧
            dict_keys (clients (subscribed ws subs' s)) = dict_keys (clients s)).
  { intros subs0 subs' Hg. unfold subscribed. cbn. split.
    - by apply dict_get_set_ne.
    - apply dict_keys_set_present. congruence. }
  destruct (handle_message_effect w ws message s)
    as [Heq|(subs & sym & Hg & [Heq|Heq])]; rewrite Heq.
  - by split_and!.
  - destruct (Hsub subs (subs ∪ {[upper sym]}) Hg) as [? ?]. by split_and!.
  - destruct (Hsub subs (subs ∖ {[upper sym]}) Hg) as [? ?]. by split_and!.
Qed.

(** X3. A subscribe or unsubscribe message whose symbol is missing, null,
    empty, zero or false is dropped in silence: no state change, no send, no
    log record, no exception. *)
Theorem falsy_symbol_ignored_silently w ws message fields s :
  json_loads message = Ret (JObj fields) →
  dict_get "action" fields = Some (JStr "subscribe") ∨
  dict_get "action" fields = Some (JStr "unsubscribe") →
  truthy (from_option id JNull (dict_get "symbol" fields)) = false →
  handle_message upper json_loads w ws message s = mkRes (Ret tt) s [].
Proof.
  intros Hload Hact Hsym. rewrite handle_message_try.
  unfold try_except, action_of. rewrite Hload.
  destruct Hact as [-> | ->]; cbn; by rewrite Hsym.
Qed.

(** X4. A subscribe or unsubscribe message whose symbol is a true value that
    is not a string (a number, a list, an object, [true]) changes nothing:
    on a registered connection the [AttributeError] of [symbol.upper()] is
    caught and logged as one error record; on a connection that is not
    registered nothing at all happens. *)
Theorem non_string_symbol_logged w ws message fields symbol s :
  json_loads message = Ret (JObj fields) →
  dict_get "action" fields = Some (JStr "subscribe") ∨
  dict_get "action" fields = Some (JStr "unsubscribe") →
  dict_get "symbol" fields = Some symbol →
  truthy symbol = true →
  (∀ sym, symbol ≠ JStr sym) →
  handle_message upper json_loads w ws message s =
  mkRes (Ret tt) s
    (if dict_mem ws (clients s)
     then [EvLog ERROR (ErrorHandlingMessage AttributeError)]
     else []).
Proof.
  intros Hload Hact Hsym Htrue Hns. rewrite handle_message_try.
  unfold try_except, action_of, dict_mem. rewrite Hload.
  assert (Hup : py_upper upper symbol = Raise AttributeError).
  { destruct (py_upper_cases upper symbol) as [[sym ->]|Hup]; [|done].
    by destruct (Hns sym). }
  destruct (dict_get ws (clients s)) as [subs|] eqn:Hg.
  - destruct Hact as [-> | ->]; cbn; rewrite Hsym; cbn; rewrite Htrue.
    + by rewrite (subscribe_nonstring upper w ws symbol subs s Hg Hup).
    + by rewrite (unsubscribe_nonstring upper w ws symbol subs s Hg Hup).
  - destruct Hact as [-> | ->]; cbn; rewrite Hsym; cbn; rewrite Htrue.
    + by rewrite subscribe_unregistered.
    + by rewrite unsubscribe_unregistered.
Qed.

(** X5. When the snapshot of the symbol is cached but the socket is already
    closed, a subscribe message still records the subscription: the failed
    send raises inside [subscribe], after the insertion and before the
    "subscribed" record, and [handle_message] catches it and logs an error
    instead. *)
Theorem subscribe_on_closed_socket_still_recorded w ws message fields sym subs
    (data : snapshot) s :
  json_loads message = Ret (JObj fields) →
  dict_get "action" fields = Some (JStr "subscribe") →
  dict_get "symbol" fields = Some (JStr sym) →
  sym ≠ "" →
  dict_get ws (clients s) = Some subs →
  stock_data s !! upper sym = Some data →
  conn_closed w ws = true →
  subscribe upper w ws (JStr sym) s =
    mkRes (Raise ConnectionClosed) (subscribed ws (subs ∪ {[upper sym]}) s)
      [EvSend ws
         (JObj [("type", JStr "stock_update"); ("symbol", JStr (upper sym));
                ("data", JObj data)]) false] ∧
  handle_message upper json_loads w ws message s =
    mkRes (Ret tt) (subscribed ws (subs ∪ {[upper sym]}) s)
      [EvSend ws
         (JObj [("type", JStr "stock_update"); ("symbol", JStr (upper sym));
                ("data", JObj data)]) false;
       EvLog ERROR (ErrorHandlingMessage ConnectionClosed)].
Proof.
  intros Hload Hact Hsym Hne Hg Hc Hclosed.
  assert (Hsub : subscribe upper w ws (JStr sym) s =
    mkRes (Raise ConnectionClosed) (subscribed ws (subs ∪ {[upper sym]}) s)
      [EvSend ws (stock_update (upper sym) data) false]).
  { rewrite (subscribe_registered _ _ _ _ subs) by done. cbn zeta.
    by rewrite Hc, Hclosed. }
  split; [done|].
  rewrite handle_message_try. unfold try_except, action_of.
  rewrite Hload, Hact, Hsym. cbn.
  assert (Htruthy : negb (String.eqb sym "") = true).
  { apply negb_true_iff. by apply String.eqb_neq. }
  by rewrite Htruthy, Hsub.
Qed.

(** X6. Symbols are compared after uppercasing: on a registered connection
    two spellings with the same uppercase form give the same result of
    [subscribe], and unsubscribing under any such spelling undoes a
    subscription that was new, giving back the state before it. *)
Theorem subscribe_unsubscribe_round_trip w w' ws sym sym' subs s :
  dict_get ws (clients s) = Some subs →
  upper sym' = upper sym →
  subscribe upper w ws (JStr sym') s = subscribe upper w ws (JStr sym) s ∧
  (upper sym ∉ subs →
   st (unsubscribe upper w' ws (JStr sym')
         (st (subscribe upper w ws (JStr sym) s))) = s).
Proof.
  clear json_loads.
  intros Hg Hup. split.
  - rewrite !(subscribe_registered _ _ _ _ subs) by done. by rewrite Hup.
  - intros Hnin. rewrite (subscribe_state _ _ _ _ subs) by done.
    rewrite (unsubscribe_state _ _ _ _ (subs ∪ {[upper sym]})).
    2:{ unfold subscribed. cbn. apply dict_get_set_eq. }
    rewrite subscribed_subscribed, Hup.
    rewrite <- (subscribed_same ws subs s Hg) at 2. f_equal. set_solver.
Qed.

Lemma handle_all_own ws inbox : ∀ s subs,
  ∃ subs',
    (handle_all upper json_loads ws inbox (subscribed ws subs s)).1
    = subscribed ws subs' s.
Proof.
  induction inbox as [|wm inbox IH]; intros s subs; cbn.
  - by exists subs.
  - destruct (handle_message_effect wm.1 ws wm.2 (subscribed ws subs s))
      as [->|(subs0 & sym & _ & [-> | ->])].
    + apply IH.
    + rewrite subscribed_subscribed. apply IH.
    + rewrite subscribed_subscribed. apply IH.
Qed.

(** X7. The whole life of a connection leaves no trace in the server state:
    for a connection that was not registered, [handler] returns with the
    state it started from, registry order and cache included, whatever the
    messages were and however the connection closed. *)
Theorem handler_restores_state ws path inbox how s :
  dict_get ws (clients s) = None →
  handler upper json_loads ws path inbox how s =
  mkRes (Ret tt) s (tr (handler upper json_loads ws path inbox how s)).
Proof.
  intros Hg. rewrite handler_run. cbn zeta. cbn [tr]. f_equal.
  change (st (register ws s)) with (subscribed ws ∅ s).
  destruct (handle_all_own ws inbox s ∅) as [subs' ->].
  rewrite unregister_present.
  2:{ unfold subscribed. cbn. by rewrite dict_get_set_eq. }
  cbn. unfold subscribed. cbn. rewrite dict_remove_set_absent by done.
  by destruct s.
Qed.
End HandlerMore.

(** ** More on the broadcast loop *)

Section BroadcastMore.
Variable upper : string -> string.
Variable json_loads : string -> outcome json.
Variable set_iter : gset string -> list string.
Variable POLYGON_API_KEY : string.
Hypothesis set_iter_spec : ∀ X : gset string, set_iter X ≡ₚ elements X.
Implicit Types (w : World) (symbol : string) (s : Server) (ws : websocket)
  (env : string -> World) (c : list (websocket * gset string)).

#[local] Abbreviation fetch_stock_data := (fetch_stock_data POLYGON_API_KEY).
#[local] Abbreviation trade_url := (trade_url POLYGON_API_KEY).
#[local] Abbreviation fetched := (fetched POLYGON_API_KEY).
#[local] Abbreviation symbol_trace := (symbol_trace POLYGON_API_KEY).
#[local] Abbreviation cache_after := (cache_after POLYGON_API_KEY).
#[local] Abbreviation delivery := (delivery POLYGON_API_KEY).
#[local] Abbreviation broadcast_cycle := (broadcast_cycle set_iter POLYGON_API_KEY).
#[local] Abbreviation broadcast_updates :=
  (broadcast_updates set_iter POLYGON_API_KEY).

Lemma normalized_subscribed ws subs s :
  normalized upper s →
  (∀ x, x ∈ subs → ∃ sym, x = upper sym) →
  normalized upper (subscribed ws subs s).
Proof.
  intros Hn Hsubs item x Hin Hx. unfold subscribed in Hin. cbn in Hin.
  apply elem_of_dict_set in Hin as [->|Hin]; [by apply Hsubs|].
  by apply (Hn item).
Qed.

(** X8. Subscription sets hold uppercased symbols only, and every
    operation keeps it so: a message of any content, a registration, an
    unregistration and a broadcast cycle all lead from a state with that
    property to a state with it. In such a state a cycle asks the feed for
    uppercased symbols only. *)
Theorem symbols_stay_uppercase s :
  normalized upper s →
  (∀ w ws message,
     normalized upper (st (handle_message upper json_loads w ws message s))) ∧
  (∀ ws, normalized upper (st (register ws s))) ∧
  (∀ ws, normalized upper (st (unregister ws s))) ∧
  (∀ env, normalized upper (st (broadcast_cycle env s))) ∧
  (∀ env url, url ∈ requests (tr (broadcast_cycle env s)) →
              ∃ sym, url = trade_url (upper sym)).
Proof.
  intros Hn. split_and!.
  - intros w ws message.
    destruct (handle_message_effect upper json_loads w ws message s)
      as [->|(subs & sym & Hg & [-> | ->])]; [done| |];
      apply normalized_subscribed; try done;
      apply dict_get_Some_elem in Hg.
    + intros x [Hx| ->%elem_of_singleton]%elem_of_union; [|by exists sym].
      by apply (Hn (ws, subs)).
    + intros x [Hx _]%elem_of_difference. by apply (Hn (ws, subs)).
  - intros ws. rewrite register_run. cbn [st].
    apply (normalized_subscribed ws ∅ s Hn). by intros x ?%not_elem_of_empty.
  - intros ws. destruct (dict_get ws (clients s)) eqn:Hg.
    + rewrite unregister_present by congruence. cbn [st].
      intros item x Hin Hx. cbn in Hin. apply elem_of_dict_remove in Hin.
      by apply (Hn item).
    + by rewrite unregister_absent.
  - intros env. by rewrite broadcast_cycle_run.
  - intros env url. rewrite broadcast_cycle_run. cbn zeta. cbn [tr].
    rewrite cycle_requests. intros (x & -> & Hx)%list_elem_of_fmap.
    apply (set_iter_elem set_iter set_iter_spec) in Hx.
    apply elem_of_all_symbols in Hx as (item & Hin & Hx).
    destruct (Hn item x Hin Hx) as [sym ->]. by exists sym.
Qed.

(** X9. After a cycle the cache entry of a subscribed symbol is its fresh
    snapshot when the fetch succeeded and the entry it had otherwise; the
    entry of a symbol nobody subscribes to is the one it had. No entry is
    ever removed, and what a send of the cycle carries for a symbol is what
    the cache holds for it when the cycle ends. *)
Theorem cache_after_one_cycle env s :
  let r := broadcast_cycle env s in
  (∀ x, stock_data (st r) !! x =
        if decide (x ∈ all_symbols (clients s))
        then match fetched env x with
             | Some d => Some d
             | None => stock_data s !! x
             end
        else stock_data s !! x) ∧
  (∀ x, is_Some (stock_data s !! x) → is_Some (stock_data (st r) !! x)) ∧
  (∀ ws payload delivered,
     (ws, payload, delivered) ∈ sends (tr r) →
     ∃ symbol d,
       payload = JObj [("type", JStr "stock_update"); ("symbol", JStr symbol);
                       ("data", JObj d)] ∧
       stock_data (st r) !! symbol = Some d).
Proof.
  intros r. subst r. rewrite broadcast_cycle_run. cbn zeta. cbn [st tr].
  set (symbols := set_iter (all_symbols (clients s))).
  assert (Hlook : ∀ x,
    cache_after env symbols (stock_data s) !! x =
    if decide (x ∈ all_symbols (clients s))
    then match fetched env x with
         | Some d => Some d
         | None => stock_data s !! x
         end
    else stock_data s !! x).
  { intros x. rewrite cache_after_lookup.
    destruct (decide (x ∈ symbols)) as [Hin|Hnin];
      destruct (decide (x ∈ all_symbols (clients s))) as [Hin'|Hnin']; try done.
    - by apply (set_iter_elem set_iter set_iter_spec) in Hin.
    - by apply (set_iter_elem set_iter set_iter_spec) in Hin'. }
  split_and!.
  - exact Hlook.
  - intros x Hx. cbn. rewrite Hlook.
    destruct (decide _); [|done]. by destruct (fetched env x).
  - intros ws payload delivered (symbol & Hin & Hx)%cycle_sends.
    rewrite symbol_trace_sends in Hx.
    destruct (fetched env symbol) as [d|] eqn:Hf; [|by apply elem_of_nil in Hx].
    apply list_elem_of_fmap in Hx as (item & [= -> -> ->] & _).
    exists symbol, d. split; [done|]. cbn. rewrite Hlook.
    rewrite decide_True by by apply (set_iter_elem set_iter set_iter_spec).
    by rewrite Hf.
Qed.

Lemma sends_app (t1 t2 : list event) : sends (t1 ++ t2) = sends t1 ++ sends t2.
Proof. apply omap_app. Qed.

Lemma requests_app (t1 t2 : list event) :
  requests (t1 ++ t2) = requests t1 ++ requests t2.
Proof. apply omap_app. Qed.

Lemma sleeps_app (t1 t2 : list event) : sleeps (t1 ++ t2) = sleeps t1 ++ sleeps t2.
Proof. apply omap_app. Qed.

Lemma sent_to_app ws (l1 l2 : list (websocket * json * bool)) :
  sent_to ws (l1 ++ l2) = sent_to ws l1 ++ sent_to ws l2.
Proof. apply filter_app. Qed.

Lemma sent_to_pushes_absent ws env symbol d c :
  dict_get ws c = None →
  sent_to ws (sends (pushes (env symbol) symbol d c)) = [].
Proof.
  rewrite pushes_sends. unfold sent_to.
  set (Q := fun item : websocket * gset string => symbol ∈ item.2).
  set (P := fun x : websocket * json * bool => x.1.1 = ws).
  induction c as [|[k0 v0] c IH]; [done|]. cbn [dict_get].
  destruct (decide (ws = k0)) as [->|Hne]; [done|]. intros Hg.
  rewrite (filter_cons Q). destruct (decide (Q (k0, v0))); [|by apply IH].
  cbn [map]. rewrite (filter_cons P).
  destruct (decide (P _)) as [HP|_]; [|by apply IH].
  unfold P in HP. cbn in HP. congruence.
Qed.

Lemma sent_to_pushes ws subs env symbol d c :
  dict_wf c → dict_get ws c = Some subs →
  sent_to ws (sends (pushes (env symbol) symbol d c)) =
  if decide (symbol ∈ subs)
  then [(ws, stock_update symbol d, negb (conn_closed (env symbol) ws))]
  else [].
Proof.
  unfold dict_wf. induction c as [|[k0 v0] c IH]; [done|].
  cbn [dict_get dict_keys map fst].
  intros [Hnotin Hnd]%NoDup_cons.
  destruct (decide (ws = k0)) as [->|Hne].
  - intros [= ->].
    assert (Hrest : sent_to k0 (sends (pushes (env symbol) symbol d c)) = []).
    { apply sent_to_pushes_absent. by apply dict_get_None. }
    rewrite pushes_sends in *. unfold sent_to in *.
    set (Q := fun item : websocket * gset string => symbol ∈ item.2) in *.
    set (P := fun x : websocket * json * bool => x.1.1 = k0) in *.
    rewrite (filter_cons Q). unfold Q at 1. cbn [snd].
    destruct (decide (symbol ∈ subs)); [|done].
    cbn [map]. rewrite (filter_cons P).
    destruct (decide (P _)) as [_|HP]; [by rewrite Hrest|].
    by destruct HP.
  - intros Hg. specialize (IH Hnd Hg).
    rewrite pushes_sends in *. unfold sent_to in *.
    set (Q := fun item : websocket * gset string => symbol ∈ item.2) in *.
    set (P := fun x : websocket * json * bool => x.1.1 = ws) in *.
    rewrite (filter_cons Q). destruct (decide (Q (k0, v0))); [|done].
    cbn [map]. rewrite (filter_cons P).
    destruct (decide (P _)) as [HP|_]; [|done].
    unfold P in HP. cbn in HP. congruence.
Qed.

Lemma sent_to_symbol_trace ws subs env symbol c :
  dict_wf c → dict_get ws c = Some subs →
  sent_to ws (sends (symbol_trace env c symbol)) =
  option_list (delivery env ws subs symbol).
Proof.
  intros Hwf Hg. rewrite symbol_trace_sends. unfold delivery.
  destruct (fetched env symbol) as [d|] eqn:Hf.
  - rewrite <- pushes_sends, (sent_to_pushes ws subs) by done.
    by destruct (decide (symbol ∈ subs)).
  - by destruct (decide (symbol ∈ subs)).
Qed.

Lemma sent_to_symbol_trace_absent ws env symbol c :
  dict_get ws c = None →
  sent_to ws (sends (symbol_trace env c symbol)) = [].
Proof.
  intros Hg. rewrite symbol_trace_sends.
  destruct (fetched env symbol) as [d|]; [|done].
  rewrite <- pushes_sends. by apply sent_to_pushes_absent.
Qed.

Lemma sent_to_cycle ws env c symbols (f : string → list (websocket * json * bool)) :
  (∀ symbol, sent_to ws (sends (symbol_trace env c symbol)) = f symbol) →
  sent_to ws (sends (concat (map (symbol_trace env c) symbols) ++ [EvSleep 5])) =
  concat (map f symbols).
Proof.
  intros Hf. rewrite sends_app.
  change (sends [EvSleep 5]) with (@nil (websocket * json * bool)).
  rewrite app_nil_r.
  induction symbols as [|symbol symbols IH]; [done|].
  cbn [map concat]. by rewrite sends_app, sent_to_app, Hf, IH.
Qed.

Lemma concat_option_list {A B} (f : A → option B) (l : list A) :
  concat (map (fun x => option_list (f x)) l) = omap f l.
Proof.
  induction l as [|a l IH]; [done|]. cbn. rewrite IH. by destruct (f a).
Qed.

(** X10. In one cycle a registered connection is sent, in the order in
    which the symbols are visited, exactly one [stock_update] for each
    symbol of its set whose fetch succeeded, and nothing else: no update for
    a symbol it does not follow, none for a failed fetch, none twice. A
    closed socket counts as sent to (the failure is swallowed), and a
    connection that is not registered is sent nothing. *)
Theorem cycle_sends_each_subscriber_its_symbols env s ws subs :
  dict_wf (clients s) →
  dict_get ws (clients s) = Some subs →
  sent_to ws (sends (tr (broadcast_cycle env s))) =
    omap (delivery env ws subs) (set_iter (all_symbols (clients s))) ∧
  NoDup (set_iter (all_symbols (clients s))) ∧
  (∀ ws', dict_get ws' (clients s) = None →
          sent_to ws' (sends (tr (broadcast_cycle env s))) = []).
Proof.
  intros Hwf Hg. rewrite broadcast_cycle_run. cbn zeta. cbn [tr]. split_and!.
  - rewrite (sent_to_cycle ws env (clients s) _
               (fun symbol => option_list (delivery env ws subs symbol))).
    + apply concat_option_list.
    + intros symbol. by apply sent_to_symbol_trace.
  - apply (set_iter_NoDup set_iter set_iter_spec).
  - intros ws' Hg'.
    rewrite (sent_to_cycle ws' env (clients s) _ (fun _ => [])).
    + by induction (set_iter _).
    + intros symbol. by apply sent_to_symbol_trace_absent.
Qed.

Lemma fetch_sleeps w symbol : sleeps (fetch_stock_data w symbol).2 = [].
Proof.
  unfold fetch_stock_data. cbv zeta.
  match goal with
  | |- context [match ?a with Ret _ => _ | Raise _ => _ end] => by destruct a
  end.
Qed.

Lemma cycle_sleeps env c symbols :
  sleeps (concat (map (symbol_trace env c) symbols) ++ [EvSleep 5]) = [5].
Proof.
  rewrite sleeps_app. cbn.
  assert (Hnil : sleeps (concat (map (symbol_trace env c) symbols)) = []);
    [|by rewrite Hnil].
  induction symbols as [|symbol symbols IH]; [done|].
  cbn. rewrite sleeps_app, IH, app_nil_r. unfold symbol_trace.
  rewrite sleeps_app, fetch_sleeps. cbn.
  destruct (fetched env symbol); [|done].
  unfold pushes. by induction (filter _ c).
Qed.

(** X11. The loop tests [self.running] once per turn. Entered with the flag
    false it does nothing at all. Entered with the flag true it never leaves
    by itself: each turn is one cycle, which asks the feed once for every
    subscribed symbol and then sleeps 5 seconds once, also when nothing is
    subscribed, and leaves the registry and the flag as they were. *)
Theorem loop_one_cycle_per_turn envs s :
  if running s then
    let r := broadcast_updates envs s in
    out r = Ret LoopStillRunning ∧
    clients (st r) = clients s ∧
    running (st r) = true ∧
    sleeps (tr r) = replicate (length envs) 5 ∧
    requests (tr r) =
      concat (replicate (length envs)
                (map trade_url (set_iter (all_symbols (clients s)))))
  else broadcast_updates envs s = mkRes (Ret LoopExited) s [].
Proof.
  destruct (running s) eqn:Hr; [|by apply broadcast_updates_stopped].
  cbn zeta. revert s Hr. induction envs as [|env envs IH]; intros s Hr.
  - cbn. unfold bind, get_self. cbn. by rewrite Hr.
  - rewrite broadcast_updates_step by done. cbn zeta.
    rewrite broadcast_cycle_run. cbn zeta. cbn [out st tr].
    set (s1 := set_stock_data _ s).
    destruct (IH s1 Hr) as (Hout & Hc & Hrun & Hsl & Hreq).
    split_and!; [done|done|done| |].
    + by rewrite sleeps_app, cycle_sleeps, Hsl.
    + by rewrite requests_app, cycle_requests, Hreq.
Qed.
End BroadcastMore.

(** ** The life of the server and of its manager *)

Lemma start_server_run w s :
  start_server w s =
  let s1 := set_update_thread true (set_running true s) in
  if bind_fails w
  then mkRes (Raise OSError) s1 [EvThreadStart]
  else mkRes (Ret tt) (set_server (Some Listening) s1)
         [EvThreadStart; EvLog INFO (ServerStarted (host s) (port s))].
Proof. unfold start_server. run_monad. by destruct (bind_fails w). Qed.

(** X12. [start_server] sets [running] and starts the broadcast thread
    before it binds the address. When the bind fails it raises [OSError]
    with both already done, no listener and no "started" record; the
    [finally] clause of [run_server] then calls [stop], which clears
    [running], so that the thread's loop ends, and the exception goes on to
    the caller. When the bind succeeds the server listens and [run_server]
    keeps waiting. Registry and cache are not touched. [stop] leaves no
    listener open and doing it twice changes nothing more. *)
Theorem start_and_stop_of_the_server h p w s :
  let r := start_server w s in
  running (st r) = true ∧
  update_thread (st r) = true ∧
  clients (st r) = clients s ∧
  stock_data (st r) = stock_data s ∧
  (if bind_fails w
   then out r = Raise OSError ∧ server (st r) = server s ∧ logs (tr r) = []
   else out r = Ret tt ∧ server (st r) = Some Listening ∧
        logs (tr r) = [(INFO, ServerStarted (host s) (port s))]) ∧
  running (st (stop (st r))) = false ∧
  server (st (stop (st r))) ≠ Some Listening ∧
  st (stop (st (stop s))) = st (stop s) ∧
  out (run_server h p w) = (if bind_fails w then Raise OSError else Ret tt) ∧
  running (st (run_server h p w)) = negb (bind_fails w) ∧
  server (st (run_server h p w)) = (if bind_fails w then None else Some Listening).
Proof.
  intros r. subst r. unfold run_server. rewrite !start_server_run, !stop_run.
  cbn zeta. destruct (bind_fails w); cbn [out st tr];
    rewrite ?stop_run; cbn [st].
  - destruct s as [h0 p0 c d r0 [l|] u]; cbn; by split_and!.
  - destruct s as [h0 p0 c d r0 [l|] u]; cbn; by split_and!.
Qed.

(** X13. The manager starts a thread exactly when the websocket is enabled
    and its flag is not set, and sets the flag when it does: a second call
    starts nothing. With the websocket disabled it only prints and changes
    nothing. It never touches the server object of a thread. The thread's
    body leaves the manager as it is when the server could bind, its server
    then running and listening; when the server could not bind it clears the
    manager's flag and prints the error, so that a later [start_server]
    tries again. *)
Theorem manager_start_is_guarded enable h port str_exn w p :
  let q := (Manager.start_server enable p).1 in
  (EvThreadStart ∈ (Manager.start_server enable p).2 ↔
   enable = true ∧ Manager.server_running (Manager.manager p) = false) ∧
  Manager.server_running (Manager.manager q) =
    (enable || Manager.server_running (Manager.manager p)) ∧
  Manager.start_server false p =
    (p, [EvPrint "WebSocket server is disabled by configuration"]) ∧
  Manager.instance q = Manager.instance p ∧
  (EvThreadStart ∉ (Manager.start_server enable q).2) ∧
  (Manager.start_server enable q).1 = q ∧
  (let t := (Manager._run_server h port str_exn w p) in
   if bind_fails w
   then (Manager.server_running (Manager.manager t.1) = false ∧
         Manager.instance t.1 = Manager.instance p ∧
         EvPrint ("Error running WebSocket server: " +:+ str_exn OSError) ∈ t.2)
   else (Manager.manager t.1 = Manager.manager p ∧
         Manager.still_serving t.1 = true)).
Proof.
  intros q. subst q. unfold Manager.start_server, Manager._run_server, run_server.
  rewrite start_server_run. cbn zeta.
  destruct p as [[thr run] inst]. cbn [Manager.manager Manager.server_running
    Manager.instance Manager.websocket_thread].
  split_and!.
  - destruct run, enable; cbn; (split; [intros Hin | intros [? ?]]);
      try done; try apply list_elem_of_here;
      (by apply elem_of_nil in Hin) ||
      (apply list_elem_of_singleton in Hin; discriminate).
  - by destruct run, enable.
  - by destruct run.
  - by destruct run, enable.
  - destruct run, enable; cbn; intros Hin;
      (by apply elem_of_nil in Hin) ||
      (apply list_elem_of_singleton in Hin; discriminate).
  - by destruct run, enable.
  - destruct (bind_fails w); cbn [out st tr fst snd]; [|done].
    rewrite stop_run. cbn. split_and!; [done|done|]. set_solver.
Qed.

(** X14. Once [stop_server] has cleared the flag of a running manager,
    [start_server] starts a second thread although the server of the first
    one was never stopped. When that second thread cannot bind the address,
    the manager ends with its flag cleared while the first server is still
    the process's instance, as it was before the stop. *)
Theorem restart_after_stop_starts_second_thread h port str_exn w t inst :
  bind_fails w = true →
  let p := {| Manager.manager :=
                {| Manager.websocket_thread := Some t;
                   Manager.server_running := true |};
              Manager.instance := inst |} in
  let p1 := (Manager.stop_server p).1 in
  let p2 := (Manager.start_server true p1).1 in
  let p3 := (Manager._run_server h port str_exn w p2).1 in
  EvThreadStart ∈ (Manager.start_server true p1).2 ∧
  Manager.instance p2 = inst ∧
  Manager.still_serving p2 = Manager.still_serving p ∧
  Manager.server_running (Manager.manager p3) = false ∧
  Manager.instance p3 = inst.
Proof.
  intros Hb p p1 p2 p3. subst p p1 p2 p3.
  unfold Manager._run_server, run_server. rewrite start_server_run.
  cbn zeta. rewrite Hb. cbn. split_and!; try done. apply list_elem_of_here.
Qed.

(** ** The fetcher's log and the effect of subscriptions on the next cycle *)

Section NextCycle.
Variable upper : string -> string.
Variable set_iter : gset string -> list string.
Variable POLYGON_API_KEY : string.
Hypothesis set_iter_spec : ∀ X : gset string, set_iter X ≡ₚ elements X.
Implicit Types (w : World) (symbol : string) (s : Server) (ws : websocket)
  (env : string -> World).

#[local] Abbreviation fetch_stock_data := (fetch_stock_data POLYGON_API_KEY).
#[local] Abbreviation trade_url := (trade_url POLYGON_API_KEY).
#[local] Abbreviation fetched := (fetched POLYGON_API_KEY).
#[local] Abbreviation delivery := (delivery POLYGON_API_KEY).
#[local] Abbreviation broadcast_cycle := (broadcast_cycle set_iter POLYGON_API_KEY).

(** X15. A fetch that fails without an exception is silent: a status other
    than 200, and a 200 answer whose ["results"] is missing, null or empty,
    give [None] and no log record. A fetch that fails with an exception
    (transport failure, a body that is not JSON, a body or a ["results"]
    that is not an object) gives [None] and one error record that names the
    symbol. A fetch never logs more than one record, and none when it
    returns a snapshot. *)
Theorem fetch_log_discipline w symbol :
  let r := fetch_stock_data w symbol in
  let url := trade_url symbol in
  (is_Some r.1 → logs r.2 = []) ∧
  (∀ status body, http_get w url = Response status body → status ≠ 200%Z →
     r = (None, [EvHttpGet url])) ∧
  (∀ fields, http_get w url = Response 200 (Some (JObj fields)) →
     truthy (from_option id (JObj []) (dict_get "results" fields)) = false →
     r = (None, [EvHttpGet url])) ∧
  (http_get w url = TransportFailure →
     r = (None, [EvHttpGet url; EvLog ERROR (ErrorFetching symbol RequestException)])) ∧
  (http_get w url = Response 200 None →
     r = (None, [EvHttpGet url; EvLog ERROR (ErrorFetching symbol JSONDecodeError)])) ∧
  (∀ data, http_get w url = Response 200 (Some data) →
     (∀ fields, data ≠ JObj fields) →
     r = (None, [EvHttpGet url; EvLog ERROR (ErrorFetching symbol AttributeError)])) ∧
  (∀ fields v, http_get w url = Response 200 (Some (JObj fields)) →
     dict_get "results" fields = Some v → truthy v = true →
     (∀ res, v ≠ JObj res) →
     r = (None, [EvHttpGet url; EvLog ERROR (ErrorFetching symbol AttributeError)])) ∧
  (logs r.2 = [] ∨ ∃ e, r.1 = None ∧ logs r.2 = [(ERROR, ErrorFetching symbol e)]).
Proof.
  intros r url. subst r url.
  unfold fetch_stock_data, requests_get, response_json. cbv zeta.
  split_and!.
  - match goal with
    | |- context [match ?a with Ret _ => _ | Raise _ => _ end] => destruct a
    end; cbn; [done | by intros [? [=]]].
  - intros status body -> Hne. cbn. apply Z.eqb_neq in Hne. by rewrite Hne.
  - intros fields -> Hfalse. cbn. by rewrite Hfalse.
  - by intros ->.
  - by intros ->.
  - intros data -> Hno. cbn. destruct data; try done. by destruct (Hno fields).
  - intros fields v -> Hv Htrue Hno. cbn. rewrite Hv. cbn. rewrite Htrue.
    destruct v; try done. by destruct (Hno fields0).
  - match goal with
    | |- context [match ?a with Ret _ => _ | Raise _ => _ end] => destruct a
    end; cbn; [by left | right; by eexists].
Qed.

Lemma elem_of_sent_to ws (x : websocket * json * bool) l :
  x ∈ l → x.1.1 = ws → x ∈ sent_to ws l.
Proof. intros Hin Hws. apply list_elem_of_filter. by split. Qed.

Lemma cycle_delivery ws subs env s :
  dict_wf (clients s) →
  dict_get ws (clients s) = Some subs →
  sent_to ws (sends (tr (broadcast_cycle env s))) =
  omap (delivery env ws subs) (set_iter (all_symbols (clients s))).
Proof.
  intros Hwf Hg. rewrite broadcast_cycle_run. cbn zeta. cbn [tr].
  rewrite (sent_to_cycle POLYGON_API_KEY ws env (clients s) _
             (fun symbol => option_list (delivery env ws subs symbol))).
  - apply concat_option_list.
  - intros symbol. by apply sent_to_symbol_trace.
Qed.

(** X16. A cycle sends nothing to a connection that has just been
    unregistered, and nothing to a connection that has just registered: a
    new connection gets its first update only after it subscribes. *)
Theorem no_update_without_subscription ws env s :
  dict_wf (clients s) →
  sent_to ws (sends (tr (broadcast_cycle env (st (unregister ws s))))) = [] ∧
  sent_to ws (sends (tr (broadcast_cycle env (st (register ws s))))) = [].
Proof.
  intros Hwf.
  assert (Hgone : sent_to ws (sends (tr (broadcast_cycle env (st (unregister ws s))))) = []).
  { rewrite broadcast_cycle_run. cbn zeta. cbn [tr].
    rewrite (sent_to_cycle POLYGON_API_KEY ws env _ _ (fun _ => [])).
    - by induction (set_iter _).
    - intros symbol. apply sent_to_symbol_trace_absent. by apply unregister_gone. }
  split; [done|].
  - rewrite (cycle_delivery ws ∅).
    + induction (set_iter _) as [|symbol l IH]; [done|]. cbn.
      unfold delivery at 1. by rewrite decide_False by apply not_elem_of_empty.
    + rewrite register_run. cbn. by apply dict_wf_set.
    + rewrite register_run. cbn. apply dict_get_set_eq.
Qed.

(** X17. A subscription is served by the next cycle: after [subscribe]
    under any spelling on a registered connection, a cycle asks the feed for
    the uppercased symbol and, when that fetch succeeds, caches the snapshot
    and sends it to the connection in a [stock_update] named by the
    uppercased symbol. *)
Theorem subscription_served_by_next_cycle w ws sym subs d env s :
  dict_get ws (clients s) = Some subs →
  fetched env (upper sym) = Some d →
  let s' := st (subscribe upper w ws (JStr sym) s) in
  trade_url (upper sym) ∈ requests (tr (broadcast_cycle env s')) ∧
  (ws,
   JObj [("type", JStr "stock_update"); ("symbol", JStr (upper sym));
         ("data", JObj d)],
   negb (conn_closed (env (upper sym)) ws))
    ∈ sends (tr (broadcast_cycle env s')) ∧
  stock_data (st (broadcast_cycle env s')) !! upper sym = Some d.
Proof.
  intros Hg Hf s'. subst s'. rewrite (subscribe_state _ _ _ _ subs) by done.
  set (s' := subscribed ws (subs ∪ {[upper sym]}) s).
  assert (Hg' : dict_get ws (clients s') = Some (subs ∪ {[upper sym]})).
  { unfold s', subscribed. cbn. apply dict_get_set_eq. }
  assert (Hin : upper sym ∈ set_iter (all_symbols (clients s'))).
  { apply (set_iter_elem set_iter set_iter_spec), elem_of_all_symbols.
    exists (ws, subs ∪ {[upper sym]}). split; [by apply dict_get_Some_elem|].
    cbn. set_solver. }
  rewrite broadcast_cycle_run. cbn zeta. cbn [st tr]. split_and!.
  - rewrite cycle_requests. apply list_elem_of_fmap. by exists (upper sym).
  - apply cycle_sends. exists (upper sym). split; [done|].
    rewrite symbol_trace_sends, Hf. apply list_elem_of_fmap.
    exists (ws, subs ∪ {[upper sym]}). split; [done|].
    apply list_elem_of_filter. split; [cbn; set_solver|].
    by apply dict_get_Some_elem.
  - cbn. rewrite cache_after_lookup, decide_True by done. by rewrite Hf.
Qed.

(** X18. An unsubscription holds from the next cycle on: after
    [unsubscribe] under any spelling, a cycle sends the connection no
    [stock_update] of the uppercased symbol, whatever other connections
    follow. *)
Theorem unsubscribed_symbol_not_sent w ws sym subs env s d b :
  dict_wf (clients s) →
  dict_get ws (clients s) = Some subs →
  (ws, stock_update (upper sym) d, b)
    ∉ sends (tr (broadcast_cycle env (st (unsubscribe upper w ws (JStr sym) s)))).
Proof.
  intros Hwf Hg Hin. rewrite (unsubscribe_state _ _ _ _ subs) in Hin by done.
  apply (elem_of_sent_to ws) in Hin; [|done].
  rewrite (cycle_delivery ws (subs ∖ {[upper sym]})) in Hin.
  - apply list_elem_of_omap in Hin as (symbol & _ & Hd).
    unfold delivery in Hd.
    destruct (decide (symbol ∈ subs ∖ {[upper sym]})) as [Hs|]; [|done].
    destruct (fetched env symbol) as [d'|]; [|done].
    cbn in Hd. injection Hd as Hsym _ _. set_solver.
  - unfold subscribed. cbn. by apply dict_wf_set.
  - unfold subscribed. cbn. apply dict_get_set_eq.
Qed.
End NextCycle.

(** ** The further properties at work on the small system *)

Lemma sample_server_wf : dict_wf (clients sample_server).
Proof. unfold dict_wf. cbn. repeat constructor; set_solver. Defined.

Lemma ping_answered_with_pong_witness :
  protocol_loads text_ping = Ret (JObj [("action", JStr "ping")]) ∧
  handle_message ascii_upper_string protocol_loads sample_world 1 text_ping
    sample_server
  = mkRes (Ret tt) sample_server
      [EvSend 1 (JObj [("type", JStr "pong");
                       ("timestamp", JStr "2024-01-02T03:04:05")]) true].
Proof.
  split; [reflexivity|].
  apply (ping_answered_with_pong ascii_upper_string protocol_loads sample_world
           1 text_ping [("action", JStr "ping")] sample_server);
    reflexivity.
Defined.

Lemma message_touches_own_connection_only_witness :
  2 ≠ 1 ∧
  dict_get 2 (clients (st (handle_message ascii_upper_string protocol_loads
                             sample_world 1 (text_subscribe (json_string "msft"))
                             sample_server)))
  = dict_get 2 (clients sample_server).
Proof.
  assert (Hne : 2 ≠ 1) by discriminate.
  split; [exact Hne|].
  destruct (message_touches_own_connection_only ascii_upper_string
              protocol_loads sample_world 1 2
              (text_subscribe (json_string "msft")) sample_server Hne)
    as [Hother _].
  exact Hother.
Defined.

Lemma falsy_symbol_ignored_silently_witness :
  protocol_loads text_subscribe_bare = Ret (JObj [("action", JStr "subscribe")]) ∧
  handle_message ascii_upper_string protocol_loads sample_world 1
    text_subscribe_bare sample_server
  = mkRes (Ret tt) sample_server [].
Proof.
  split; [reflexivity|].
  apply (falsy_symbol_ignored_silently ascii_upper_string protocol_loads
           sample_world 1 text_subscribe_bare [("action", JStr "subscribe")]
           sample_server).
  - reflexivity.
  - left. reflexivity.
  - reflexivity.
Defined.

Lemma non_string_symbol_logged_witness :
  protocol_loads (text_subscribe "5")
  = Ret (JObj [("action", JStr "subscribe"); ("symbol", JInt 5)]) ∧
  handle_message ascii_upper_string protocol_loads sample_world 1
    (text_subscribe "5") sample_server
  = mkRes (Ret tt) sample_server [EvLog ERROR (ErrorHandlingMessage AttributeError)].
Proof.
  split; [reflexivity|].
  apply (non_string_symbol_logged ascii_upper_string protocol_loads
           sample_world 1 (text_subscribe "5")
           [("action", JStr "subscribe"); ("symbol", JInt 5)] (JInt 5)
           sample_server).
  - reflexivity.
  - left. reflexivity.
  - reflexivity.
  - reflexivity.
  - discriminate.
Defined.

Lemma subscribe_on_closed_socket_still_recorded_witness :
  conn_closed hostile_world 1 = true ∧
  stock_data sample_server !! ascii_upper_string "msft" = Some sample_snapshot ∧
  st (handle_message ascii_upper_string protocol_loads hostile_world 1
        (text_subscribe (json_string "msft")) sample_server)
  = subscribed 1 ({["AAPL"; "MSFT"]} ∪ {[ascii_upper_string "msft"]}) sample_server.
Proof.
  split_and!; [reflexivity|reflexivity|].
  assert (Hm := subscribe_on_closed_socket_still_recorded ascii_upper_string
              protocol_loads hostile_world 1 (text_subscribe (json_string "msft"))
              [("action", JStr "subscribe"); ("symbol", JStr "msft")] "msft"
              {["AAPL"; "MSFT"]} sample_snapshot sample_server).
  destruct Hm as [_ Hm]; [reflexivity|reflexivity|reflexivity|discriminate|
                          reflexivity|reflexivity|reflexivity|].
  rewrite Hm. reflexivity.
Defined.

Lemma subscribe_unsubscribe_round_trip_witness :
  dict_get 1 (clients sample_server) = Some {["AAPL"; "MSFT"]} ∧
  ascii_upper_string "Tsla" = ascii_upper_string "tsla" ∧
  subscribe ascii_upper_string sample_world 1 (JStr "Tsla") sample_server
  = subscribe ascii_upper_string sample_world 1 (JStr "tsla") sample_server.
Proof.
  split_and!; [reflexivity|reflexivity|].
  assert (Hg : dict_get 1 (clients sample_server) = Some {["AAPL"; "MSFT"]})
    by reflexivity.
  assert (Hup : ascii_upper_string "Tsla" = ascii_upper_string "tsla")
    by reflexivity.
  destruct (subscribe_unsubscribe_round_trip ascii_upper_string
              sample_world sample_world 1 "tsla" "Tsla" {["AAPL"; "MSFT"]}
              sample_server Hg Hup) as [Hsame _].
  exact Hsame.
Defined.

Lemma handler_restores_state_witness :
  dict_get 7 (clients sample_server) = None ∧
  st (handler ascii_upper_string protocol_loads 7 "/"
        [(sample_world, text_subscribe (json_string "msft"));
         (sample_world, "oops"); (sample_world, text_ping)]
        ClosedError sample_server)
  = sample_server.
Proof.
  split; [reflexivity|].
  rewrite (handler_restores_state ascii_upper_string protocol_loads 7 "/"
             _ ClosedError sample_server); reflexivity.
Defined.

Lemma sample_server_normalized : normalized ascii_upper_string sample_server.
Proof.
  intros item x Hin Hx. exists x. cbn in Hin.
  apply elem_of_cons in Hin as [->|Hin].
  - cbn in Hx. apply elem_of_union in Hx as [Hx|Hx];
      apply elem_of_singleton in Hx; by subst x.
  - apply list_elem_of_singleton in Hin as ->. cbn in Hx.
    apply elem_of_singleton in Hx. by subst x.
Defined.

Lemma symbols_stay_uppercase_witness :
  normalized ascii_upper_string sample_server ∧
  normalized ascii_upper_string
    (st (handle_message ascii_upper_string protocol_loads sample_world 1
           (text_subscribe (json_string "msft")) sample_server)).
Proof.
  split; [exact sample_server_normalized|].
  destruct (symbols_stay_uppercase ascii_upper_string protocol_loads elements
              sample_key elements_iter sample_server sample_server_normalized)
    as [Hm _].
  apply Hm.
Defined.

Lemma cache_after_one_cycle_witness :
  (∀ X : gset string, elements X ≡ₚ elements X) ∧
  ∀ x, is_Some (stock_data sample_server !! x) →
       is_Some (stock_data (st (broadcast_cycle elements sample_key
                                  (fun _ => sample_world) sample_server)) !! x).
Proof.
  split; [exact elements_iter|].
  destruct (cache_after_one_cycle elements sample_key elements_iter
              (fun _ => sample_world) sample_server) as (_ & Hkeep & _).
  exact Hkeep.
Defined.

Lemma cycle_sends_each_subscriber_its_symbols_witness :
  dict_wf (clients sample_server) ∧
  dict_get 2 (clients sample_server) = Some {["MSFT"]} ∧
  sent_to 2 (sends (tr (broadcast_cycle elements sample_key
                          (fun _ => sample_world) sample_server)))
  = omap (delivery sample_key (fun _ => sample_world) 2 {["MSFT"]})
      (elements (all_symbols (clients sample_server))).
Proof.
  split_and!; [exact sample_server_wf|reflexivity|].
  assert (Hg : dict_get 2 (clients sample_server) = Some {["MSFT"]})
    by reflexivity.
  destruct (cycle_sends_each_subscriber_its_symbols elements sample_key
              elements_iter (fun _ => sample_world) sample_server 2 {["MSFT"]}
              sample_server_wf Hg) as [Hsent _].
  exact Hsent.
Defined.

Lemma restart_after_stop_starts_second_thread_witness :
  bind_fails hostile_world = true ∧
  Manager.server_running
    (Manager.manager
       (Manager._run_server "localhost" 8765 (fun _ => "address in use")
          hostile_world
          (Manager.start_server true
             (Manager.stop_server serving_process).1).1).1) = false.
Proof.
  split; [reflexivity|].
  assert (Hb : bind_fails hostile_world = true) by reflexivity.
  destruct (restart_after_stop_starts_second_thread "localhost" 8765
              (fun _ => "address in use") hostile_world Manager.DaemonThread
              (Manager.instance serving_process) Hb)
    as (_ & _ & _ & Hflag & _).
  exact Hflag.
Defined.

Lemma fetch_log_discipline_witness :
  http_get sample_world (trade_url sample_key "AAPL") = TransportFailure ∧
  fetch_stock_data sample_key sample_world "AAPL"
  = (None, [EvHttpGet (trade_url sample_key "AAPL");
            EvLog ERROR (ErrorFetching "AAPL" RequestException)]).
Proof.
  split; [reflexivity|].
  destruct (fetch_log_discipline sample_key sample_world "AAPL")
    as (_ & _ & _ & Hfail & _).
  apply Hfail. reflexivity.
Defined.

Lemma no_update_without_subscription_witness :
  dict_wf (clients sample_server) ∧
  sent_to 2 (sends (tr (broadcast_cycle elements sample_key
                          (fun _ => sample_world)
                          (st (unregister 2 sample_server))))) = [].
Proof.
  split; [exact sample_server_wf|].
  destruct (no_update_without_subscription elements sample_key 2
              (fun _ => sample_world) sample_server sample_server_wf)
    as [Hgone _].
  exact Hgone.
Defined.

Lemma subscription_served_by_next_cycle_witness :
  dict_get 2 (clients sample_server) = Some {["MSFT"]} ∧
  fetched sample_key (fun _ => sample_world) (ascii_upper_string "msft")
  = Some (snapshot_of sample_trade (now_iso sample_world)) ∧
  trade_url sample_key (ascii_upper_string "msft")
    ∈ requests (tr (broadcast_cycle elements sample_key (fun _ => sample_world)
                      (st (subscribe ascii_upper_string sample_world 2
                             (JStr "msft") sample_server)))).
Proof.
  split_and!; [reflexivity|reflexivity|].
  assert (Hg : dict_get 2 (clients sample_server) = Some {["MSFT"]})
    by reflexivity.
  assert (Hf : fetched sample_key (fun _ => sample_world) (ascii_upper_string "msft")
               = Some (snapshot_of sample_trade (now_iso sample_world)))
    by reflexivity.
  destruct (subscription_served_by_next_cycle ascii_upper_string elements
              sample_key elements_iter sample_world 2 "msft" {["MSFT"]}
              (snapshot_of sample_trade (now_iso sample_world))
              (fun _ => sample_world) sample_server Hg Hf) as [Hreq _].
  exact Hreq.
Defined.

Lemma unsubscribed_symbol_not_sent_witness :
  dict_wf (clients sample_server) ∧
  dict_get 1 (clients sample_server) = Some {["AAPL"; "MSFT"]} ∧
  (1, stock_update (ascii_upper_string "msft")
        (snapshot_of sample_trade (now_iso sample_world)), true)
    ∉ sends (tr (broadcast_cycle elements sample_key (fun _ => sample_world)
                   (st (unsubscribe ascii_upper_string sample_world 1
                          (JStr "msft") sample_server)))).
Proof.
  split_and!; [exact sample_server_wf|reflexivity|].
  assert (Hg : dict_get 1 (clients sample_server) = Some {["AAPL"; "MSFT"]})
    by reflexivity.
  exact (unsubscribed_symbol_not_sent ascii_upper_string elements sample_key
           elements_iter sample_world 1 "msft" {["AAPL"; "MSFT"]}
           (fun _ => sample_world) sample_server _ _ sample_server_wf Hg).
Defined.

(** ** Which record a refused message leaves in the log *)

Section RefusedMessages.
Variable upper : string -> string.
Variable json_loads : string -> outcome json.

(** X19. What is logged for a message that is not handled tells the three
    cases apart: text that is not JSON is logged as an error with the text
    itself; any other exception of [json.loads], and a JSON value that is
    not an object, are logged as an error with the exception; an object with
    an unknown action is logged as a warning that names the action ([None]
    when the object has none). *)
Theorem refused_message_log_record w ws message s :
  rejected json_loads message = true →
  handle_message upper json_loads w ws message s =
  mkRes (Ret tt) s
    [match json_loads message with
     | Raise JSONDecodeError => EvLog ERROR (InvalidJSON message)
     | Raise e => EvLog ERROR (ErrorHandlingMessage e)
     | Ret (JObj fields) =>
         EvLog WARNING (UnknownAction (from_option id JNull (dict_get "action" fields)))
     | Ret _ => EvLog ERROR (ErrorHandlingMessage AttributeError)
     end].
Proof.
  unfold rejected, recognized, action_of. intros Hrej.
  rewrite handle_message_try. unfold try_except, action_of.
  destruct (json_loads message) as [data|e]; cbn.
  - destruct data; cbn; try done.
    apply negb_true_iff in Hrej.
    by apply orb_false_iff in Hrej as [[-> ->]%orb_false_iff ->].
  - by destruct e.
Qed.
End RefusedMessages.

Lemma refused_message_log_record_witness :
  rejected protocol_loads "{}" = true ∧
  handle_message ascii_upper_string protocol_loads sample_world 1 "{}" sample_server
  = mkRes (Ret tt) sample_server [EvLog WARNING (UnknownAction JNull)].
Proof.
  split; [reflexivity|].
  apply (refused_message_log_record ascii_upper_string protocol_loads
           sample_world 1 "{}" sample_server).
  reflexivity.
Defined.
